(** * booksv2: the catalog server's route handlers over the key-value store

    A shallow embedding of the Hono server (sign-up, public listings and the
    protected /my/* routes) together with the properties of its
    authorization and CRUD contract. *)

From Stdlib Require Import Ascii.
From stdpp Require Import gmap strings list fin_maps pretty.

Local Open Scope string_scope.
Set Warnings "-register-all".

(** ** JSON values and the JavaScript operations the handlers apply to them *)

(** A JSON value, as produced by [c.req.json()] and as stored in the
    key-value table.  A number is carried by its canonical rendering (what
    [String(n)] gives), which is all the handlers ever observe of it: its
    truthiness and its text inside a template literal. *)
Inductive value : Type :=
  | JNull
  | JBool (b : bool)
  | JNum (repr : string)
  | JStr (s : string)
  | JArr (l : list value)
  | JObj (o : gmap string value).

(** A JavaScript value of the handlers: a JSON value or [undefined]. *)
Abbreviation jsval := (option value).
Abbreviation undefined := (@None value).

(** The outcome of an expression that may throw. *)
Inductive res (A : Type) : Type :=
  | Ret (a : A)
  | Exn.
Arguments Ret {A} a.
Arguments Exn {A}.

Definition res_bind {A B} (r : res A) (k : A → res B) : res B :=
  match r with Ret a => k a | Exn => Exn end.

(** [!!v] of JavaScript: [undefined], [null], [false], [0] and [""] are
    falsy, every array and object is truthy. *)
Definition truthy (v : jsval) : bool :=
  match v with
  | None => false
  | Some JNull => false
  | Some (JBool b) => b
  | Some (JNum r) => negb (String.eqb r "0")
  | Some (JStr s) => negb (String.eqb s "")
  | Some (JArr _) => true
  | Some (JObj _) => true
  end.

(** [a || b]. *)
Definition js_or (a b : jsval) : jsval := if truthy a then a else b.

(** [v === s] for a string [s]; every comparison of the server has a string
    on one side. *)
Definition strict_eq_str (v : jsval) (s : string) : bool :=
  match v with
  | Some (JStr t) => String.eqb t s
  | _ => false
  end.

(** [v.k] for the property names the server reads (none of them is inherited
    from a prototype): reading from [undefined] or [null] throws a
    TypeError, a primitive or an array has no such property. *)
Definition member (v : jsval) (k : string) : res jsval :=
  match v with
  | None => Exn
  | Some JNull => Exn
  | Some (JObj o) => Ret (o !! k)
  | Some _ => Ret undefined
  end.

(** [v?.k]. *)
Definition opt_member (v : jsval) (k : string) : jsval :=
  match v with
  | Some (JObj o) => o !! k
  | _ => undefined
  end.

(** The text of a value inside a template literal.  An object parsed from
    JSON renders through [Object.prototype.toString] unless it has an own
    [toString] property, which is then not callable and the conversion
    throws; an array joins its elements with commas, [null] elements
    rendering as the empty string. *)
Fixpoint to_string (v : value) : res string :=
  match v with
  | JNull => Ret "null"
  | JBool true => Ret "true"
  | JBool false => Ret "false"
  | JNum r => Ret r
  | JStr s => Ret s
  | JArr l =>
      (fix join (l : list value) : res string :=
         match l with
         | [] => Ret ""
         | x :: l' =>
             res_bind (match x with JNull => Ret "" | _ => to_string x end)
               (λ s, match l' with
                     | [] => Ret s
                     | _ => res_bind (join l') (λ r, Ret (s ++ "," ++ r))
                     end)
         end) l
  | JObj o =>
      match o !! "toString" with
      | Some _ => Exn
      | None => Ret "[object Object]"
      end
  end.

(** [`${p}${v}`]. *)
Definition template (p : string) (v : jsval) : res string :=
  match v with
  | None => Ret (p ++ "undefined")
  | Some x => res_bind (to_string x) (λ s, Ret (p ++ s))
  end.

(** The own enumerable properties copied by [{...v}]: those of an object,
    the indices of an array or of a string, none for the other values. *)
Fixpoint indexed {A} (f : A → value) (i : nat) (l : list A) : gmap string value :=
  match l with
  | [] => ∅
  | x :: l' => <[pretty i := f x]> (indexed f (S i) l')
  end.

Definition spread (v : jsval) : gmap string value :=
  match v with
  | Some (JObj o) => o
  | Some (JArr l) => indexed id 0 l
  | Some (JStr s) => indexed (λ a, JStr (String a EmptyString)) 0 (String.list_ascii_of_string s)
  | _ => ∅
  end.

(** [{...o, k: v}] once serialised: JSON drops a property whose value is
    [undefined], and every object the handlers build goes straight to
    [kv.set] or [c.json]. *)
Definition set_field (k : string) (v : jsval) (o : gmap string value) : gmap string value :=
  match v with
  | Some x => <[k := x]> o
  | None => delete k o
  end.

Definition object (fields : list (string * jsval)) (base : gmap string value) : value :=
  JObj (foldl (λ o kv, set_field kv.1 kv.2 o) base fields).

(** [s.startsWith(p)]. *)
Fixpoint startsWith (p s : string) : bool :=
  match p with
  | EmptyString => true
  | String a p' =>
      match s with
      | EmptyString => false
      | String b s' => if Ascii.eqb a b then startsWith p' s' else false
      end
  end.

(** [s.split(' ')]. *)
Fixpoint split (sep : ascii) (s : string) : list string :=
  match s with
  | EmptyString => [EmptyString]
  | String a s' =>
      if Ascii.eqb a sep then EmptyString :: split sep s'
      else match split sep s' with
           | [] => [String a EmptyString]
           | w :: ws => String a w :: ws
           end
  end.

(** ** The key-value store and the handlers' effects *)

Abbreviation store := (gmap string value).

(** A handler body: it reads and writes the store and may throw; what it
    wrote before throwing stays written. *)
Definition M (A : Type) : Type := store → res A * store.

Definition ret {A} (a : A) : M A := λ s, (Ret a, s).
Definition throw {A} : M A := λ s, (Exn, s).
Definition lift {A} (r : res A) : M A := λ s, (r, s).
Definition bind {A B} (m : M A) (k : A → M B) : M B :=
  λ s, match m s with
       | (Ret a, s') => k a s'
       | (Exn, s') => (Exn, s')
       end.

Notation "'let!' x ':=' m 'in' k" := (bind m (λ x, k))
  (at level 20, x name, m at level 100, k at level 200).

Fixpoint mapM {A B} (f : A → M B) (l : list A) : M (list B) :=
  match l with
  | [] => ret []
  | x :: l' => let! y := f x in let! ys := mapM f l' in ret (y :: ys)
  end.

Fixpoint filterM {A} (f : A → res bool) (l : list A) : res (list A) :=
  match l with
  | [] => Ret []
  | x :: l' =>
      res_bind (f x) (λ b,
        res_bind (filterM f l') (λ r, Ret (if b then x :: r else r)))
  end.

(** Modelled from the spec: the module [kv_store.tsx] the server imports as
    [kv] is missing; the spec describes it as a flat persistent mapping from
    string key to JSON value supporting get, set, delete and prefix scan.
    [get] yields [undefined] for a key that is not there. *)
Definition kv_get (k : string) : M jsval := λ s, (Ret (s !! k), s).

(** Modelled from the spec: [kv.set] of the missing [kv_store.tsx]. *)
Definition kv_set (k : string) (v : value) : M unit := λ s, (Ret (), <[k := v]> s).

(** Modelled from the spec: [kv.del] of the missing [kv_store.tsx]. *)
Definition kv_del (k : string) : M unit := λ s, (Ret (), delete k s).

(** Modelled from the spec: [kv.getByPrefix] of the missing [kv_store.tsx],
    the values of all keys that start with the prefix, in the store's
    iteration order. *)
Definition scan (p : string) (s : store) : list value :=
  (map_to_list (filter (λ kv, Is_true (startsWith p kv.1)) s)).*2.

(** Modelled from the spec: [kv.getByPrefix] of the missing [kv_store.tsx]. *)
Definition kv_getByPrefix (p : string) : M (list value) := λ s, (Ret (scan p s), s).

(** ** Requests, responses and the outside world *)

Inductive route : Type :=
  | PostSignup
  | GetBooks
  | GetCollections
  | GetUserCollections (userId : string)
  | GetCollectionBooks (collectionId : string)
  | GetMyBooks
  | GetMyCollections
  | PostMyCollections
  | PostMyBooks
  | PutMyBook (id : string)
  | DeleteMyBook (id : string)
  | DeleteMyCollection (id : string)
  | GetMyProfile
  | PutMyProfile.

(** A request: its route with the path parameters, its [Authorization]
    header, and its body as [c.req.json()] reads it ([None] when that
    throws). *)
Record request : Type := {
  req_route : route;
  authorization : option string;
  json_body : option value
}.

Record response : Type := {
  status : nat;
  payload : value
}.

(** What [supabase.auth.getUser] answers: [{ data: { user }, error }]. *)
Record getUser_result : Type := {
  gu_error : option string;
  gu_user : option string
}.

(** What [supabase.auth.admin.createUser] answers. *)
Inductive createUser_result : Type :=
  | CreateError (message : string)
  | Created (id : string) (user : value).

(** What a request reads from outside the program: the identity provider,
    the clock and the random number generator. *)
Record env : Type := {
  getUser : option string → getUser_result;
  createUser : jsval → jsval → jsval → createUser_result;
  date_now : N;
  random_suffix : string;
  iso_now : string
}.

(** [c.json(fields, st)]. *)
Definition json (st : nat) (fields : list (string * jsval)) : response :=
  {| status := st; payload := object fields ∅ |}.

(** The [try { ... } catch] around every handler. *)
Definition try_catch (body : M response) (failure : string) (s : store) : response * store :=
  match body s with
  | (Ret r, s') => (r, s')
  | (Exn, s') => (json 500 [("error", Some (JStr failure))], s')
  end.

Definition req_json (req : request) : M jsval :=
  match json_body req with
  | Some v => ret (Some v)
  | None => throw
  end.

(** Truthiness of a string or null. *)
Definition str_truthy (o : option string) : bool :=
  match o with
  | Some s => negb (String.eqb s "")
  | None => false
  end.

Record verified : Type := {
  v_error : option string;
  v_userId : option string
}.

(** [error?.message || 'Unauthorized']. *)
Definition message_or (error : option string) (fallback : string) : string :=
  match error with
  | Some m => if String.eqb m "" then fallback else m
  | None => fallback
  end.

Definition verifyUser (e : env) (req : request) : verified :=
  match authorization req with
  | Some authHeader =>
      if startsWith "Bearer " authHeader then
        let accessToken := split " "%char authHeader !! 1%nat in
        let r := getUser e accessToken in
        match gu_error r, gu_user r with
        | None, Some id => {| v_error := None; v_userId := Some id |}
        | error, _ =>
            {| v_error := Some (message_or error "Unauthorized"); v_userId := None |}
        end
      else {| v_error := Some "No token provided"; v_userId := None |}
  | None => {| v_error := Some "No token provided"; v_userId := None |}
  end.

(** [`${Date.now()}-${Math.random().toString(36).substr(2, 9)}`]. *)
Definition generateId (e : env) : string :=
  pretty (date_now e) ++ "-" ++ random_suffix e.

(** The guard that opens every protected handler:
    [if (error || !userId) return c.json({ error: 'Unauthorized' }, 401)]. *)
Definition protected (e : env) (req : request) (k : string → M response) : M response :=
  let v := verifyUser e req in
  if str_truthy (v_error v) || negb (str_truthy (v_userId v))
  then ret (json 401 [("error", Some (JStr "Unauthorized"))])
  else k (default "" (v_userId v)).

(** ** The route handlers *)

Definition error_body (message : string) : list (string * jsval) :=
  [("error", Some (JStr message))].

(** [records.filter((r) => r[field] === wanted)]. *)
Definition filter_by (field wanted : string) (records : list value) : res (list value) :=
  filterM (λ r, res_bind (member (Some r) field) (λ v, Ret (strict_eq_str v wanted))) records.

(** [body.k || old.k]. *)
Definition coalesce (supplied old : jsval) (k : string) : res jsval :=
  res_bind (member supplied k) (λ x, if truthy x then Ret x else member old k).

(** [body.k !== undefined ? body.k : old.k]. *)
Definition if_defined (supplied old : jsval) (k : string) : res jsval :=
  res_bind (member supplied k) (λ x,
    match x with
    | Some _ => Ret x
    | None => member old k
    end).

(** POST /signup *)
Definition post_signup (e : env) (req : request) : store → response * store :=
  try_catch
    (let! body := req_json req in
     let! email := lift (member body "email") in
     let! password := lift (member body "password") in
     let! name := lift (member body "name") in
     if negb (truthy email) || negb (truthy password) || negb (truthy name)
     then ret (json 400 (error_body "Email, password, and name are required"))
     else
       match createUser e email password name with
       | CreateError message => ret (json 400 (error_body message))
       | Created id user =>
           let! _ := kv_set ("user:" ++ id)
                       (object [("id", Some (JStr id)); ("email", email); ("name", name)] ∅) in
           ret (json 200 [("success", Some (JBool true)); ("user", Some user)])
       end)
    "Failed to sign up".

(** GET /books *)
Definition get_books : store → response * store :=
  try_catch
    (let! books := kv_getByPrefix "book:" in
     ret (json 200 [("books", Some (JArr books))]))
    "Failed to fetch books".

(** The callback of GET /collections that attaches [userName]. *)
Definition enrich (collection : value) : M value :=
  let! owner := lift (member (Some collection) "userId") in
  let! key := lift (template "user:" owner) in
  let! user := kv_get key in
  ret (object [("userName", js_or (opt_member user "name") (Some (JStr "Unknown User")))]
         (spread (Some collection))).

(** GET /collections *)
Definition get_collections : store → response * store :=
  try_catch
    (let! collections := kv_getByPrefix "collection:" in
     let! enrichedCollections := mapM enrich collections in
     ret (json 200 [("collections", Some (JArr enrichedCollections))]))
    "Failed to fetch collections".

(** GET /user/:userId/collections *)
Definition get_user_collections (userId : string) : store → response * store :=
  try_catch
    (let! allCollections := kv_getByPrefix "collection:" in
     let! userCollections := lift (filter_by "userId" userId allCollections) in
     let! user := kv_get ("user:" ++ userId) in
     ret (json 200 [("collections", Some (JArr userCollections));
                    ("userName", js_or (opt_member user "name") (Some (JStr "Unknown User")))]))
    "Failed to fetch user collections".

(** GET /collection/:collectionId/books *)
Definition get_collection_books (collectionId : string) : store → response * store :=
  try_catch
    (let! allBooks := kv_getByPrefix "book:" in
     let! collectionBooks := lift (filter_by "collectionId" collectionId allBooks) in
     let! collection := kv_get ("collection:" ++ collectionId) in
     ret (json 200 [("books", Some (JArr collectionBooks));
                    ("collection", js_or collection (Some JNull))]))
    "Failed to fetch collection books".

(** GET /my/books *)
Definition get_my_books (e : env) (req : request) : store → response * store :=
  try_catch
    (protected e req (λ userId,
       let! allBooks := kv_getByPrefix "book:" in
       let! userBooks := lift (filter_by "userId" userId allBooks) in
       ret (json 200 [("books", Some (JArr userBooks))])))
    "Failed to fetch user books".

(** GET /my/collections *)
Definition get_my_collections (e : env) (req : request) : store → response * store :=
  try_catch
    (protected e req (λ userId,
       let! allCollections := kv_getByPrefix "collection:" in
       let! userCollections := lift (filter_by "userId" userId allCollections) in
       ret (json 200 [("collections", Some (JArr userCollections))])))
    "Failed to fetch user collections".

(** POST /my/collections *)
Definition post_my_collections (e : env) (req : request) : store → response * store :=
  try_catch
    (protected e req (λ userId,
       let! body := req_json req in
       let! name := lift (member body "name") in
       let! description := lift (member body "description") in
       if negb (truthy name)
       then ret (json 400 (error_body "Collection name is required"))
       else
         let collectionId := generateId e in
         let collection :=
           object [("id", Some (JStr collectionId));
                   ("name", name);
                   ("description", js_or description (Some (JStr "")));
                   ("userId", Some (JStr userId));
                   ("createdAt", Some (JStr (iso_now e)))] ∅ in
         let! _ := kv_set ("collection:" ++ collectionId) collection in
         ret (json 200 [("success", Some (JBool true)); ("collection", Some collection)])))
    "Failed to create collection".

(** POST /my/books *)
Definition post_my_books (e : env) (req : request) : store → response * store :=
  try_catch
    (protected e req (λ userId,
       let! body := req_json req in
       let! title := lift (member body "title") in
       let! author := lift (member body "author") in
       let! description := lift (member body "description") in
       let! collectionId := lift (member body "collectionId") in
       let! coverImage := lift (member body "coverImage") in
       if negb (truthy title) || negb (truthy collectionId)
       then ret (json 400 (error_body "Title and collection are required"))
       else
         let! key := lift (template "collection:" collectionId) in
         let! collection := kv_get key in
         if negb (truthy collection)
         then ret (json 403 (error_body "Invalid collection"))
         else
           let! owner := lift (member collection "userId") in
           if negb (strict_eq_str owner userId)
           then ret (json 403 (error_body "Invalid collection"))
           else
             let bookId := generateId e in
             let book :=
               object [("id", Some (JStr bookId));
                       ("title", title);
                       ("author", js_or author (Some (JStr "")));
                       ("description", js_or description (Some (JStr "")));
                       ("coverImage", js_or coverImage (Some (JStr "")));
                       ("collectionId", collectionId);
                       ("userId", Some (JStr userId));
                       ("createdAt", Some (JStr (iso_now e)))] ∅ in
             let! _ := kv_set ("book:" ++ bookId) book in
             ret (json 200 [("success", Some (JBool true)); ("book", Some book)])))
    "Failed to create book".

(** PUT /my/books/:id *)
Definition put_my_book (e : env) (req : request) (bookId : string) : store → response * store :=
  try_catch
    (protected e req (λ userId,
       let! book := kv_get ("book:" ++ bookId) in
       if negb (truthy book)
       then ret (json 403 (error_body "Book not found or unauthorized"))
       else
         let! owner := lift (member book "userId") in
         if negb (strict_eq_str owner userId)
         then ret (json 403 (error_body "Book not found or unauthorized"))
         else
           let! body := req_json req in
           let! title := lift (coalesce body book "title") in
           let! author := lift (if_defined body book "author") in
           let! description := lift (if_defined body book "description") in
           let! coverImage := lift (if_defined body book "coverImage") in
           let! collectionId := lift (coalesce body book "collectionId") in
           let updatedBook :=
             object [("title", title);
                     ("author", author);
                     ("description", description);
                     ("coverImage", coverImage);
                     ("collectionId", collectionId);
                     ("updatedAt", Some (JStr (iso_now e)))] (spread book) in
           let! _ := kv_set ("book:" ++ bookId) updatedBook in
           ret (json 200 [("success", Some (JBool true)); ("book", Some updatedBook)])))
    "Failed to update book".

(** DELETE /my/books/:id *)
Definition delete_my_book (e : env) (req : request) (bookId : string) : store → response * store :=
  try_catch
    (protected e req (λ userId,
       let! book := kv_get ("book:" ++ bookId) in
       if negb (truthy book)
       then ret (json 403 (error_body "Book not found or unauthorized"))
       else
         let! owner := lift (member book "userId") in
         if negb (strict_eq_str owner userId)
         then ret (json 403 (error_body "Book not found or unauthorized"))
         else
           let! _ := kv_del ("book:" ++ bookId) in
           ret (json 200 [("success", Some (JBool true))])))
    "Failed to delete book".

(** The callback of the cascade: [kv.del(`book:${book.id}`)]. *)
Definition delete_book_of (book : value) : M unit :=
  let! id := lift (member (Some book) "id") in
  let! key := lift (template "book:" id) in
  kv_del key.

(** DELETE /my/collections/:id *)
Definition delete_my_collection (e : env) (req : request) (collectionId : string)
  : store → response * store :=
  try_catch
    (protected e req (λ userId,
       let! collection := kv_get ("collection:" ++ collectionId) in
       if negb (truthy collection)
       then ret (json 403 (error_body "Collection not found or unauthorized"))
       else
         let! owner := lift (member collection "userId") in
         if negb (strict_eq_str owner userId)
         then ret (json 403 (error_body "Collection not found or unauthorized"))
         else
           let! allBooks := kv_getByPrefix "book:" in
           let! booksToDelete := lift (filter_by "collectionId" collectionId allBooks) in
           let! _ := mapM delete_book_of booksToDelete in
           let! _ := kv_del ("collection:" ++ collectionId) in
           ret (json 200 [("success", Some (JBool true))])))
    "Failed to delete collection".

(** GET /my/profile *)
Definition get_my_profile (e : env) (req : request) : store → response * store :=
  try_catch
    (protected e req (λ userId,
       let! user := kv_get ("user:" ++ userId) in
       ret (json 200 [("user", user)])))
    "Failed to fetch profile".

(** PUT /my/profile *)
Definition put_my_profile (e : env) (req : request) : store → response * store :=
  try_catch
    (protected e req (λ userId,
       let! user := kv_get ("user:" ++ userId) in
       if negb (truthy user)
       then ret (json 404 (error_body "User not found"))
       else
         let! body := req_json req in
         let! name := lift (coalesce body user "name") in
         let! bio := lift (if_defined body user "bio") in
         let updatedUser :=
           object [("name", name);
                   ("bio", bio);
                   ("updatedAt", Some (JStr (iso_now e)))] (spread user) in
         let! _ := kv_set ("user:" ++ userId) updatedUser in
         ret (json 200 [("success", Some (JBool true)); ("user", Some updatedUser)])))
    "Failed to update profile".

(** The application: the handler registered for the request's route. *)
Definition app (e : env) (req : request) : store → response * store :=
  match req_route req with
  | PostSignup => post_signup e req
  | GetBooks => get_books
  | GetCollections => get_collections
  | GetUserCollections userId => get_user_collections userId
  | GetCollectionBooks collectionId => get_collection_books collectionId
  | GetMyBooks => get_my_books e req
  | GetMyCollections => get_my_collections e req
  | PostMyCollections => post_my_collections e req
  | PostMyBooks => post_my_books e req
  | PutMyBook id => put_my_book e req id
  | DeleteMyBook id => delete_my_book e req id
  | DeleteMyCollection id => delete_my_collection e req id
  | GetMyProfile => get_my_profile e req
  | PutMyProfile => put_my_profile e req
  end.

(** The stores the server can be in: it starts empty and changes only
    through requests. *)
Inductive reachable : store → Prop :=
  | reachable_empty : reachable ∅
  | reachable_step e req s : reachable s → reachable (app e req s).2.

(** ** Notions the properties are stated with *)

(** The guard of a protected handler lets the request through as [userId]. *)
Definition authenticated (e : env) (req : request) (userId : string) : Prop :=
  verifyUser e req = {| v_error := None; v_userId := Some userId |} ∧ userId ≠ "".

(** The identity provider rejects a token: it answers with an error or
    without a user. *)
Definition rejects (e : env) (token : option string) : Prop :=
  is_Some (gu_error (getUser e token)) ∨ gu_user (getUser e token) = None.

(** The request has no [Authorization] header, or one that does not start
    with [Bearer ], or one whose token the provider rejects. *)
Definition unauthenticated (e : env) (req : request) : Prop :=
  match authorization req with
  | None => True
  | Some authHeader =>
      startsWith "Bearer " authHeader = false
      ∨ rejects e (split " "%char authHeader !! 1%nat)
  end.

(** The routes under /my/. *)
Definition my_route (r : route) : bool :=
  match r with
  | GetMyBooks | GetMyCollections | PostMyCollections | PostMyBooks
  | PutMyBook _ | DeleteMyBook _ | DeleteMyCollection _
  | GetMyProfile | PutMyProfile => true
  | _ => false
  end.

(** [record.userId === userId], false as well when there is no record. *)
Definition owned_by (record : jsval) (userId : string) : bool :=
  strict_eq_str (opt_member record "userId") userId.

(** The fields a create handler insists on. *)
Definition required_fields (r : route) : list string :=
  match r with
  | PostMyCollections => ["name"]
  | PostMyBooks => ["title"; "collectionId"]
  | _ => []
  end.

(** The same request with another body. *)
Definition with_body (req : request) (body : value) : request :=
  {| req_route := req_route req;
     authorization := authorization req;
     json_body := Some body |}.

(** [supplied !== undefined ? supplied : old]. *)
Definition supplied_or (supplied old : jsval) : jsval :=
  match supplied with
  | Some _ => supplied
  | None => old
  end.

(** The record PUT /my/books/:id writes over [book] for a readable body. *)
Definition updated_book (e : env) (body : value) (book : gmap string value) : value :=
  object [("title", js_or (opt_member (Some body) "title") (book !! "title"));
          ("author", supplied_or (opt_member (Some body) "author") (book !! "author"));
          ("description", supplied_or (opt_member (Some body) "description") (book !! "description"));
          ("coverImage", supplied_or (opt_member (Some body) "coverImage") (book !! "coverImage"));
          ("collectionId", js_or (opt_member (Some body) "collectionId") (book !! "collectionId"));
          ("updatedAt", Some (JStr (iso_now e)))] book.

(** The record PUT /my/profile writes over [user] for a readable body. *)
Definition updated_user (e : env) (body : value) (user : jsval) : value :=
  object [("name", js_or (opt_member (Some body) "name") (opt_member user "name"));
          ("bio", supplied_or (opt_member (Some body) "bio") (opt_member user "bio"));
          ("updatedAt", Some (JStr (iso_now e)))] (spread user).

(** What every record the handlers write satisfies: a book or a collection
    carries the id it is stored under, a collection names its owner, a
    user has a truthy name. *)
Record well_keyed (s : store) : Prop := {
  wk_book k v :
    s !! ("book:" ++ k) = Some v → ∃ o, v = JObj o ∧ o !! "id" = Some (JStr k);
  wk_collection k v :
    s !! ("collection:" ++ k) = Some v →
    ∃ o u, v = JObj o ∧ o !! "id" = Some (JStr k) ∧ o !! "userId" = Some (JStr u);
  wk_user k v :
    s !! ("user:" ++ k) = Some v → ∃ o, v = JObj o ∧ truthy (o !! "name") = true
}.

(** A handler body keeps a property of the store, however it ends. *)
Definition keeps (P : store → Prop) {A} (m : M A) : Prop := ∀ s, P s → P (m s).2.

(** The keys the cascade of a collection deletion removes for a list of
    books that carry string ids. *)
Definition book_keys (books : list value) : list string :=
  omap (λ book, match opt_member (Some book) "id" with
                | Some (JStr k) => Some ("book:" ++ k)
                | _ => None
                end) books.

(** An entry of GET /collections against the collection it comes from: the
    collection's fields plus [userName], which is the name of the owner's
    user record, or the sentinel when there is no such record. *)
Definition carries_owner_name (s : store) (collection entry : value) : Prop :=
  ∃ o owner name,
    collection = JObj o
    ∧ o !! "userId" = Some (JStr owner)
    ∧ entry = JObj (<["userName" := name]> o)
    ∧ match s !! ("user:" ++ owner) with
      | Some user => opt_member (Some user) "name" = Some name
      | None => name = JStr "Unknown User"
      end.

(** Every book has the owner of the collection its collectionId names. *)
Definition owners_agree (s : store) : Prop :=
  ∀ k book, s !! ("book:" ++ k) = Some book →
    ∃ key collection,
      template "collection:" (opt_member (Some book) "collectionId") = Ret key
      ∧ s !! key = Some collection
      ∧ opt_member (Some collection) "userId" = opt_member (Some book) "userId".

(** A small world to run the handlers in: two users with one token each. *)
Module Sample.

Definition provider (token : option string) : getUser_result :=
  match token with
  | Some "token-a" => {| gu_error := None; gu_user := Some "alice" |}
  | Some "token-b" => {| gu_error := None; gu_user := Some "bob" |}
  | _ => {| gu_error := Some "invalid JWT"; gu_user := None |}
  end.

Definition registrar (email password name : jsval) : createUser_result :=
  match email with
  | Some (JStr "alice@example.org") => Created "alice" (JObj {[ "id" := JStr "alice" ]})
  | _ => CreateError "User already registered"
  end.

Definition world (now : N) : env :=
  {| getUser := provider;
     createUser := registrar;
     date_now := now;
     random_suffix := "k3j9x0q1z";
     iso_now := "2024-05-01T10:00:00.000Z" |}.

Definition request_of (r : route) (token : string) (body : value) : request :=
  {| req_route := r; authorization := Some ("Bearer " ++ token); json_body := Some body |}.

Definition record (fields : list (string * value)) : value := JObj (list_to_map fields).

(** Alice opens a shelf and puts a book on it. *)
Definition alice_shelf : request :=
  request_of PostMyCollections "token-a" (record [("name", JStr "Sci-Fi")]).

Definition alice_book : request :=
  request_of PostMyBooks "token-a"
    (record [("title", JStr "Dune"); ("collectionId", JStr "1-k3j9x0q1z")]).

Definition alice_library : store :=
  (app (world 2) alice_book (app (world 1) alice_shelf ∅).2).2.

(** Bob opens a shelf of his own, puts a book on it, then moves the book
    onto Alice's shelf with an update. *)
Definition bob_shelf : request :=
  request_of PostMyCollections "token-b" (record [("name", JStr "Crime")]).

Definition bob_book : request :=
  request_of PostMyBooks "token-b"
    (record [("title", JStr "The Big Sleep"); ("collectionId", JStr "2-k3j9x0q1z")]).

Definition bob_moves_book : request :=
  request_of (PutMyBook "3-k3j9x0q1z") "token-b"
    (record [("collectionId", JStr "1-k3j9x0q1z")]).

Definition before_move : store :=
  (app (world 3) bob_book (app (world 2) bob_shelf (app (world 1) alice_shelf ∅).2).2).2.

Definition after_move : store := (app (world 4) bob_moves_book before_move).2.

End Sample.

(** ** Further notions *)

(** [s.includes(c)] for a character. *)
Fixpoint contains (c : ascii) (s : string) : bool :=
  match s with
  | EmptyString => false
  | String a s' => Ascii.eqb a c || contains c s'
  end.

(** What [verifyUser] makes of the provider's answer for a token. *)
Definition verdict (r : getUser_result) : verified :=
  match gu_error r, gu_user r with
  | None, Some id => {| v_error := None; v_userId := Some id |}
  | error, _ => {| v_error := Some (message_or error "Unauthorized"); v_userId := None |}
  end.

(** The routes registered with [app.get]. *)
Definition get_route (r : route) : bool :=
  match r with
  | GetBooks | GetCollections | GetUserCollections _ | GetCollectionBooks _
  | GetMyBooks | GetMyCollections | GetMyProfile => true
  | _ => false
  end.


(** A handler body writes, if at all, as its last step before answering
    200: when it answers anything else, or throws, the store is as it was. *)
Definition commits_last (m : M response) : Prop :=
  ∀ s, match m s with
       | (Ret r, s') => status r = 200%nat ∨ s' = s
       | (Exn, s') => s' = s
       end.


(** The record sign-up stores for a user. *)
Definition user_record (id : string) (email name : jsval) : value :=
  object [("id", Some (JStr id)); ("email", email); ("name", name)] ∅.


(** The record POST /my/collections stores for a body that passes
    validation. *)
Definition new_collection (e : env) (userId : string) (body : gmap string value) : value :=
  object [("id", Some (JStr (generateId e)));
          ("name", body !! "name");
          ("description", js_or (body !! "description") (Some (JStr "")));
          ("userId", Some (JStr userId));
          ("createdAt", Some (JStr (iso_now e)))] ∅.

(** The record POST /my/books stores for a body that passes validation and
    the ownership check. *)
Definition new_book (e : env) (userId : string) (body : gmap string value) : value :=
  object [("id", Some (JStr (generateId e)));
          ("title", body !! "title");
          ("author", js_or (body !! "author") (Some (JStr "")));
          ("description", js_or (body !! "description") (Some (JStr "")));
          ("coverImage", js_or (body !! "coverImage") (Some (JStr "")));
          ("collectionId", body !! "collectionId");
          ("userId", Some (JStr userId));
          ("createdAt", Some (JStr (iso_now e)))] ∅.


(** The shape of a stored book: an object that carries the id of its key, a
    non-empty owner, a truthy title and collectionId, the three optional
    texts and a creation time. *)
Definition book_ok (k : string) (v : value) : Prop :=
  ∃ o u t,
    v = JObj o
    ∧ o !! "id" = Some (JStr k)
    ∧ o !! "userId" = Some (JStr u) ∧ u ≠ ""
    ∧ truthy (o !! "title") = true
    ∧ truthy (o !! "collectionId") = true
    ∧ is_Some (o !! "author") ∧ is_Some (o !! "description") ∧ is_Some (o !! "coverImage")
    ∧ o !! "createdAt" = Some (JStr t).

(** The shape of a stored collection. *)
Definition collection_ok (k : string) (v : value) : Prop :=
  ∃ o u t,
    v = JObj o
    ∧ o !! "id" = Some (JStr k)
    ∧ o !! "userId" = Some (JStr u) ∧ u ≠ ""
    ∧ truthy (o !! "name") = true
    ∧ is_Some (o !! "description")
    ∧ o !! "createdAt" = Some (JStr t).

(** The shape of a stored user. *)
Definition user_ok (k : string) (v : value) : Prop :=
  ∃ o,
    v = JObj o
    ∧ o !! "id" = Some (JStr k)
    ∧ truthy (o !! "email") = true
    ∧ truthy (o !! "name") = true.

(** Every key of the store is a user, book or collection key, and the
    record under it has the shape of its kind. *)
Record well_formed (s : store) : Prop := {
  wf_keys key v :
    s !! key = Some v →
    startsWith "user:" key || startsWith "book:" key || startsWith "collection:" key = true;
  wf_book k v : s !! ("book:" ++ k) = Some v → book_ok k v;
  wf_collection k v : s !! ("collection:" ++ k) = Some v → collection_ok k v;
  wf_user k v : s !! ("user:" ++ k) = Some v → user_ok k v
}.


(** A handler body changes the store under at most one key. *)
Definition one_key (m : M response) : Prop :=
  ∀ s, ∃ key, ∀ k, k ≠ key → (m s).2 !! k = s !! k.

(** The failure message of the catch-all of a route that reads a body
    first. *)
Definition failure_of (r : route) : string :=
  match r with
  | PostSignup => "Failed to sign up"
  | PostMyCollections => "Failed to create collection"
  | PostMyBooks => "Failed to create book"
  | _ => ""
  end.

(** The 400 message of such a route. *)
Definition required_of (r : route) : string :=
  match r with
  | PostSignup => "Email, password, and name are required"
  | PostMyCollections => "Collection name is required"
  | PostMyBooks => "Title and collection are required"
  | _ => ""
  end.

(** The routes registered with [app.post]. *)
Definition post_route (r : route) : bool :=
  match r with
  | PostSignup | PostMyCollections | PostMyBooks => true
  | _ => false
  end.

(** The guard of a route lets the request through: sign-up has none. *)
Definition admitted (e : env) (req : request) : Prop :=
  req_route req = PostSignup ∨ ∃ u, authenticated e req u.

(** A store no handler writes: one of the two books on the shelf has an id
    that cannot be rendered into a key, so the cascade of the shelf's
    deletion throws when it comes to that book. *)
Definition torn_shelf : store :=
  list_to_map
    [("collection:c1", Sample.record [("id", JStr "c1"); ("userId", JStr "alice")]);
     ("book:b1", Sample.record [("id", JStr "b1"); ("collectionId", JStr "c1");
                                ("userId", JStr "alice")]);
     ("book:b2", Sample.record [("id", JObj {[ "toString" := JNum "1" ]});
                                ("collectionId", JStr "c1"); ("userId", JStr "alice")])].

(** ** Properties *)

(** *** Strings and JavaScript values *)

Lemma startsWith_app p s : startsWith p (p ++ s) = true.
Proof. induction p as [|a p IH]; simpl; [done|]. by rewrite Ascii.eqb_refl. Qed.

Lemma startsWith_inv p k : startsWith p k = true → ∃ s, k = p ++ s.
Proof.
  revert k; induction p as [|a p IH]; intros k; simpl.
  - eauto.
  - destruct k as [|b k]; [done|].
    destruct (Ascii.eqb_spec a b) as [->|]; [|done].
    intros [s ->]%IH. by exists s.
Qed.

Lemma member_object o k : member (Some (JObj o)) k = Ret (o !! k).
Proof. done. Qed.

Lemma member_not_null v k :
  v ≠ JNull → member (Some v) k = Ret (opt_member (Some v) k).
Proof. by destruct v. Qed.

Lemma member_truthy x k : truthy x = true → member x k = Ret (opt_member x k).
Proof. by destruct x as [[]|]. Qed.

(** *** The authentication guard *)

Lemma protected_authenticated e req u k :
  authenticated e req u → protected e req k = k u.
Proof.
  intros [Hv Hu]. unfold protected. rewrite Hv. simpl.
  by apply String.eqb_neq in Hu as ->.
Qed.

Lemma verifyUser_unauthenticated e req :
  unauthenticated e req → v_userId (verifyUser e req) = None.
Proof.
  unfold unauthenticated, verifyUser, rejects.
  destruct (authorization req) as [h|]; [|done].
  intros [-> | [[m Hm] | Hu]]; [done | |].
  - destruct (startsWith _ _); [|done]. by rewrite Hm.
  - destruct (startsWith _ _); [|done]. rewrite Hu. by destruct (gu_error _).
Qed.

Lemma protected_unauthenticated e req k :
  v_userId (verifyUser e req) = None →
  protected e req k = ret (json 401 (error_body "Unauthorized")).
Proof.
  intros Hv. unfold protected. rewrite Hv. simpl. by rewrite orb_true_r.
Qed.

Lemma try_catch_ret r msg s : try_catch (ret r) msg s = (r, s).
Proof. done. Qed.

(** C5: a request to a /my/ route without an [Authorization] header, with
    one that does not start with [Bearer ], or with a token the identity
    provider rejects, is answered 401 and leaves the store as it was. *)
Theorem my_routes_require_authentication e req s :
  my_route (req_route req) = true →
  unauthenticated e req →
  app e req s = (json 401 (error_body "Unauthorized"), s)
  ∧ status (app e req s).1 = 401%nat
  ∧ (app e req s).2 = s.
Proof.
  intros Hroute Hun%verifyUser_unauthenticated.
  assert (app e req s = (json 401 (error_body "Unauthorized"), s)) as ->; [|done].
  unfold app.
  destruct (req_route req); try discriminate Hroute;
    unfold get_my_books, get_my_collections, post_my_collections, post_my_books,
      put_my_book, delete_my_book, delete_my_collection, get_my_profile, put_my_profile;
    by rewrite protected_unauthenticated.
Qed.

Lemma my_routes_require_authentication_witness :
  let req := {| req_route := DeleteMyCollection "1714557600000-k3j9x0q1z";
                authorization := Some "Bearer expired";
                json_body := None |} in
  let s : store := {[ "collection:1714557600000-k3j9x0q1z" :=
                        Sample.record [("userId", JStr "alice")] ]} in
  status (app (Sample.world 7) req s).1 = 401%nat ∧ (app (Sample.world 7) req s).2 = s.
Proof.
  intros req s.
  apply (my_routes_require_authentication (Sample.world 7) req s).
  - reflexivity.
  - right. right. reflexivity.
Defined.

(** *** Running a handler body *)

Lemma bind_ret {A B} (a : A) (k : A → M B) s : bind (ret a) k s = k a s.
Proof. done. Qed.

Lemma bind_lift {A B} (r : res A) (k : A → M B) s :
  bind (lift r) k s = match r with Ret a => k a s | Exn => (Exn, s) end.
Proof. by destruct r. Qed.

Lemma bind_kv_get {B} key (k : jsval → M B) s : bind (kv_get key) k s = k (s !! key) s.
Proof. done. Qed.

Lemma bind_kv_set {B} key v (k : unit → M B) s :
  bind (kv_set key v) k s = k () (<[key := v]> s).
Proof. done. Qed.

Lemma bind_kv_del {B} key (k : unit → M B) s :
  bind (kv_del key) k s = k () (delete key s).
Proof. done. Qed.

Lemma bind_req_json {B} req (k : jsval → M B) s :
  bind (req_json req) k s =
  match json_body req with Some v => k (Some v) s | None => (Exn, s) end.
Proof. unfold req_json. by destruct (json_body req). Qed.

(** The existence-and-ownership test shared by the handlers:
    [if (!record || record.userId !== userId) return deny]. *)
Lemma ownership_test {A} (x : jsval) u (deny : M A) (k : jsval → M A) s :
  (if negb (truthy x) then deny
   else bind (lift (member x "userId"))
          (λ owner, if negb (strict_eq_str owner u) then deny else k owner)) s
  = if owned_by x u then k (opt_member x "userId") s else deny s.
Proof.
  unfold owned_by, bind, lift.
  destruct x as [[| [] | r | t | l | o]|]; simpl; try done.
  - by destruct (negb _).
  - by destruct (negb _).
  - by destruct (strict_eq_str _ _).
Qed.

Ltac enter u :=
  unfold app;
  repeat match goal with H : req_route _ = _ |- _ => rewrite H; clear H end;
  unfold post_my_collections, post_my_books, put_my_book, delete_my_book,
    delete_my_collection, get_my_profile, put_my_profile, get_my_books,
    get_my_collections;
  rewrite (protected_authenticated _ _ u) by assumption;
  unfold try_catch.

(** *** Creating records *)

(** C1, as the handler has it: a book creation that passes validation
    (truthy title and collectionId) and names a collection that is absent or
    not the caller's is answered 403 and writes nothing. *)
Theorem post_my_books_foreign_collection e req s u body title collectionId key :
  req_route req = PostMyBooks →
  authenticated e req u →
  json_body req = Some body →
  member (Some body) "title" = Ret title →
  member (Some body) "collectionId" = Ret collectionId →
  truthy title = true →
  truthy collectionId = true →
  template "collection:" collectionId = Ret key →
  owned_by (s !! key) u = false →
  app e req s = (json 403 (error_body "Invalid collection"), s).
Proof.
  intros Hroute Hauth Hbody Htitle Hcid Ht Hc Hkey Hown.
  assert (body ≠ JNull) as Hnn by (by intros ->).
  enter u.
  rewrite bind_req_json, Hbody; cbv beta iota.
  rewrite member_not_null in Htitle, Hcid by done.
  assert (title = opt_member (Some body) "title") as -> by congruence.
  assert (collectionId = opt_member (Some body) "collectionId") as -> by congruence.
  rewrite !member_not_null by done.
  do 5 (rewrite bind_lift; cbv beta iota).
  rewrite Ht, Hc. cbn [negb orb].
  rewrite bind_lift, Hkey, bind_kv_get.
  by rewrite ownership_test, Hown.
Qed.

Lemma post_my_books_foreign_collection_witness :
  let s : store := {[ "collection:c1" := Sample.record [("id", JStr "c1"); ("userId", JStr "alice")] ]} in
  let req := Sample.request_of PostMyBooks "token-b"
               (Sample.record [("title", JStr "Dune"); ("collectionId", JStr "c1")]) in
  app (Sample.world 7) req s = (json 403 (error_body "Invalid collection"), s).
Proof.
  intros s req.
  apply (post_my_books_foreign_collection (Sample.world 7) req s "bob"
           (Sample.record [("title", JStr "Dune"); ("collectionId", JStr "c1")])
           (Some (JStr "Dune")) (Some (JStr "c1")) "collection:c1").
  - reflexivity.
  - split; [reflexivity | discriminate].
  - reflexivity.
  - vm_compute; reflexivity.
  - vm_compute; reflexivity.
  - reflexivity.
  - reflexivity.
  - reflexivity.
  - vm_compute; reflexivity.
Defined.

(** Against C1 without the validation proviso: validation comes first, so a creation without a
    title that names someone else's collection is answered 400, not 403. *)
Lemma post_my_books_untitled_foreign_collection :
  let s : store := {[ "collection:c1" := Sample.record [("id", JStr "c1"); ("userId", JStr "alice")] ]} in
  let req := Sample.request_of PostMyBooks "token-b" (Sample.record [("collectionId", JStr "c1")]) in
  authenticated (Sample.world 7) req "bob"
  ∧ owned_by (s !! "collection:c1") "bob" = false
  ∧ status (app (Sample.world 7) req s).1 = 400%nat
  ∧ status (app (Sample.world 7) req s).1 ≠ 403%nat.
Proof.
  intros s req. split_and!.
  - split; [reflexivity | discriminate].
  - vm_compute; reflexivity.
  - vm_compute; reflexivity.
  - vm_compute; discriminate.
Qed.

Lemma authenticated_with_body e req u body :
  authenticated e req u → authenticated e (with_body req body) u.
Proof. done. Qed.

Ltac binds := repeat (rewrite bind_lift; cbv beta iota).

(** C9: a create request whose required field (name of a collection; title
    or collectionId of a book) is the empty string is answered 400, the
    answer it gets without the field, and stores nothing. *)
Theorem create_rejects_empty_required_field e req s u body field :
  authenticated e req u →
  field ∈ required_fields (req_route req) →
  json_body req = Some (JObj body) →
  body !! field = Some (JStr "") →
  status (app e req s).1 = 400%nat
  ∧ (app e req s).2 = s
  ∧ app e req s = app e (with_body req (JObj (delete field body))) s.
Proof.
  intros Hauth Hfield Hbody Hempty.
  pose proof (authenticated_with_body e req u (JObj (delete field body)) Hauth) as Hauth'.
  destruct (req_route req) eqn:Hroute; simpl in Hfield; try by apply elem_of_nil in Hfield.
  - apply list_elem_of_singleton in Hfield as ->.
    assert (app e req s = (json 400 (error_body "Collection name is required"), s)) as ->.
    { enter u. rewrite bind_req_json, Hbody; cbv beta iota.
      rewrite !member_object. binds. by rewrite Hempty. }
    split_and!; try done.
    symmetry. unfold app. cbn [req_route with_body]. rewrite Hroute.
    unfold post_my_collections, try_catch.
    rewrite (protected_authenticated _ _ u) by done.
    rewrite bind_req_json; cbn [json_body with_body]; cbv beta iota.
    rewrite !member_object. binds. by rewrite lookup_delete_eq.
  - assert (app e req s = (json 400 (error_body "Title and collection are required"), s)) as ->.
    { enter u. rewrite bind_req_json, Hbody; cbv beta iota.
      rewrite !member_object. binds.
      apply elem_of_cons in Hfield as [-> | ->%list_elem_of_singleton];
        rewrite Hempty; simpl; by rewrite ?orb_true_r. }
    split_and!; try done.
    symmetry. unfold app. cbn [req_route with_body]. rewrite Hroute.
    unfold post_my_books, try_catch.
    rewrite (protected_authenticated _ _ u) by done.
    rewrite bind_req_json; cbn [json_body with_body]; cbv beta iota.
    rewrite !member_object. binds.
    apply elem_of_cons in Hfield as [-> | ->%list_elem_of_singleton];
      rewrite lookup_delete_eq; simpl; by rewrite ?orb_true_r.
Qed.

Lemma create_rejects_empty_required_field_witness :
  let s : store := {[ "collection:c1" := Sample.record [("id", JStr "c1"); ("userId", JStr "alice")] ]} in
  let req := Sample.request_of PostMyBooks "token-a"
               (Sample.record [("title", JStr ""); ("collectionId", JStr "c1")]) in
  status (app (Sample.world 7) req s).1 = 400%nat
  ∧ (app (Sample.world 7) req s).2 = s
  ∧ app (Sample.world 7) req s
    = app (Sample.world 7)
        (with_body req (JObj (delete "title" (list_to_map [("title", JStr ""); ("collectionId", JStr "c1")])))) s.
Proof.
  intros s req.
  apply (create_rejects_empty_required_field (Sample.world 7) req s "alice"
           (list_to_map [("title", JStr ""); ("collectionId", JStr "c1")]) "title").
  - split; [reflexivity | discriminate].
  - simpl. apply elem_of_cons. left. reflexivity.
  - reflexivity.
  - vm_compute; reflexivity.
Defined.

(** *** Updating and deleting a book *)

(** C6: an update or a deletion of a book that is absent or not the
    caller's gets the one combined error, status 403, and changes nothing. *)
Theorem book_update_delete_forbidden e req s u id :
  req_route req = PutMyBook id ∨ req_route req = DeleteMyBook id →
  authenticated e req u →
  s !! ("book:" ++ id) = None
  ∨ (∃ book, s !! ("book:" ++ id) = Some book ∧ owned_by (Some book) u = false) →
  app e req s = (json 403 (error_body "Book not found or unauthorized"), s).
Proof.
  intros Hroute Hauth Hbook.
  assert (owned_by (s !! ("book:" ++ id)) u = false) as Hown.
  { destruct Hbook as [-> | (book & -> & ?)]; done. }
  destruct Hroute as [Hroute | Hroute]; enter u;
    rewrite bind_kv_get; cbv beta; by rewrite ownership_test, Hown.
Qed.

Lemma book_update_delete_forbidden_witness :
  let s : store := {[ "book:b1" := Sample.record [("id", JStr "b1"); ("userId", JStr "alice")] ]} in
  let req := Sample.request_of (DeleteMyBook "b1") "token-b" JNull in
  app (Sample.world 7) req s = (json 403 (error_body "Book not found or unauthorized"), s).
Proof.
  intros s req.
  apply (book_update_delete_forbidden (Sample.world 7) req s "bob" "b1").
  - right. reflexivity.
  - split; [reflexivity | discriminate].
  - right. exists (Sample.record [("id", JStr "b1"); ("userId", JStr "alice")]).
    split; vm_compute; reflexivity.
Defined.

Lemma lookup_set_field k v o k' :
  set_field k v o !! k' = if decide (k = k') then v else o !! k'.
Proof.
  unfold set_field. destruct v; case_decide; subst;
    by rewrite ?lookup_insert_eq, ?lookup_insert_ne, ?lookup_delete_eq, ?lookup_delete_ne.
Qed.

Lemma coalesce_run body old k :
  body ≠ JNull → truthy old = true →
  coalesce (Some body) old k = Ret (js_or (opt_member (Some body) k) (opt_member old k)).
Proof.
  intros Hnn Hold. unfold coalesce, js_or.
  rewrite (member_not_null body), (member_truthy old) by done.
  unfold res_bind. by destruct (truthy (opt_member (Some body) k)).
Qed.

Lemma if_defined_run body old k :
  body ≠ JNull → truthy old = true →
  if_defined (Some body) old k
  = Ret (supplied_or (opt_member (Some body) k) (opt_member old k)).
Proof.
  intros Hnn Hold. unfold if_defined, supplied_or.
  rewrite (member_not_null body), (member_truthy old) by done.
  unfold res_bind. by destruct (opt_member (Some body) k).
Qed.

Lemma put_my_book_run e req s u id :
  req_route req = PutMyBook id →
  authenticated e req u →
  app e req s =
  match s !! ("book:" ++ id) with
  | Some (JObj book) =>
      if strict_eq_str (book !! "userId") u then
        match json_body req with
        | None | Some JNull => (json 500 (error_body "Failed to update book"), s)
        | Some body =>
            (json 200 [("success", Some (JBool true)); ("book", Some (updated_book e body book))],
             <["book:" ++ id := updated_book e body book]> s)
        end
      else (json 403 (error_body "Book not found or unauthorized"), s)
  | _ => (json 403 (error_body "Book not found or unauthorized"), s)
  end.
Proof.
  intros Hroute Hauth. enter u.
  rewrite bind_kv_get; cbv beta. rewrite ownership_test.
  destruct (s !! ("book:" ++ id)) as [[| | | | |book]|] eqn:Hbook; try done.
  unfold owned_by. cbn [opt_member].
  destruct (strict_eq_str _ _); [|done].
  rewrite bind_req_json. destruct (json_body req) as [body|]; [|done].
  assert (body = JNull ∨ body ≠ JNull) as [->|Hnn]
    by (destruct body; auto; right; done); [done|].
  rewrite !coalesce_run, !if_defined_run by done. binds.
  rewrite bind_kv_set. cbv beta. unfold ret. cbn [spread opt_member].
  by destruct body.
Qed.

Lemma protected_cases e req :
  (∃ u, authenticated e req u)
  ∨ (∀ k, protected e req k = ret (json 401 (error_body "Unauthorized"))).
Proof.
  destruct (v_userId (verifyUser e req)) as [u|] eqn:Hu;
    [|right; intros k; by apply protected_unauthenticated].
  assert (verifyUser e req = {| v_error := None; v_userId := Some u |}) as Hv.
  { revert Hu. unfold verifyUser.
    destruct (authorization req) as [h|]; [|done].
    destruct (startsWith "Bearer " h); [|done].
    destruct (getUser e (split " "%char h !! 1%nat)) as [[?|] [?|]]; simpl; congruence. }
  destruct (decide (u = "")) as [->|Hne].
  - right. intros k. unfold protected. by rewrite Hv.
  - left. by exists u.
Qed.

Ltac fields :=
  unfold updated_book, object; cbn [foldl fst snd opt_member];
  repeat (rewrite lookup_set_field || rewrite lookup_insert);
  repeat first [rewrite decide_True by done | rewrite decide_False by done];
  try done.

Ltac each_field H :=
  repeat (apply elem_of_cons in H as [-> | H]); [.. | by apply elem_of_nil in H].

(** C3: an update merges field by field.  Title and collectionId are taken
    from the body only when truthy there (an empty string keeps the old
    value); author, description and coverImage are taken whenever the body
    has them (an empty string replaces the old value); a body holding only a
    description leaves the other four as they were; updatedAt is set. *)
Theorem put_my_book_merges_fields e req s u id book body :
  req_route req = PutMyBook id →
  authenticated e req u →
  s !! ("book:" ++ id) = Some (JObj book) →
  book !! "userId" = Some (JStr u) →
  json_body req = Some (JObj body) →
  ∃ updated,
    app e req s
    = (json 200 [("success", Some (JBool true)); ("book", Some (JObj updated))],
       <["book:" ++ id := JObj updated]> s)
    ∧ updated !! "updatedAt" = Some (JStr (iso_now e))
    ∧ (∀ k, k ∈ ["title"; "collectionId"] →
         updated !! k = js_or (body !! k) (book !! k))
    ∧ (∀ k, k ∈ ["author"; "description"; "coverImage"] →
         updated !! k = supplied_or (body !! k) (book !! k))
    ∧ (∀ k, k ∈ ["title"; "collectionId"] →
         body !! k = Some (JStr "") → updated !! k = book !! k)
    ∧ (∀ k, k ∈ ["author"; "description"; "coverImage"] →
         body !! k = Some (JStr "") → updated !! k = Some (JStr ""))
    ∧ (∀ new, body = {[ "description" := JStr new ]} →
         updated !! "description" = Some (JStr new)
         ∧ ∀ k, k ∈ ["title"; "author"; "coverImage"; "collectionId"] →
             updated !! k = book !! k).
Proof.
  intros Hroute Hauth Hbook Howner Hbody.
  assert (∃ updated, updated_book e (JObj body) book = JObj updated) as [updated Hupd]
    by (unfold updated_book, object; eauto).
  assert (∀ k, k ∈ ["title"; "collectionId"] →
            updated !! k = js_or (body !! k) (book !! k)) as Hor.
  { intros k Hk. revert Hupd. unfold updated_book, object. intros [= <-].
    each_field Hk; fields. }
  assert (∀ k, k ∈ ["author"; "description"; "coverImage"] →
            updated !! k = supplied_or (body !! k) (book !! k)) as Hdef.
  { intros k Hk. revert Hupd. unfold updated_book, object. intros [= <-].
    each_field Hk; fields. }
  exists updated. split_and!; try done.
  - rewrite (put_my_book_run e req s u id), Hbook, Howner, Hbody, Hupd by done.
    cbn [strict_eq_str]. by rewrite String.eqb_refl.
  - revert Hupd. unfold updated_book, object. intros [= <-]. fields.
  - intros k Hk Hempty. by rewrite Hor, Hempty.
  - intros k Hk Hempty. by rewrite Hdef, Hempty.
  - intros new ->. split.
    + rewrite Hdef by set_solver. by rewrite lookup_singleton_eq.
    + intros k Hk. each_field Hk;
        rewrite ?Hor, ?Hdef by set_solver; by rewrite lookup_singleton_ne.
Qed.

Lemma put_my_book_merges_fields_witness :
  let book : gmap string value :=
    list_to_map [("id", JStr "b1"); ("title", JStr "Dune"); ("author", JStr "F. Herbert");
                 ("description", JStr "old"); ("coverImage", JStr "dune.png");
                 ("collectionId", JStr "c1"); ("userId", JStr "alice")] in
  let s : store := {[ "book:b1" := JObj book ]} in
  let req := Sample.request_of (PutMyBook "b1") "token-a"
               (JObj {[ "description" := JStr "new" ]}) in
  ∃ updated,
    (app (Sample.world 7) req s).2 = <["book:b1" := JObj updated]> s
    ∧ updated !! "description" = Some (JStr "new")
    ∧ updated !! "title" = Some (JStr "Dune")
    ∧ updated !! "updatedAt" = Some (JStr "2024-05-01T10:00:00.000Z").
Proof.
  intros book s req.
  destruct (put_my_book_merges_fields (Sample.world 7) req s "alice" "b1" book
              {[ "description" := JStr "new" ]})
    as (updated & Hrun & Hat & _ & _ & _ & _ & Hnew).
  - reflexivity.
  - split; [reflexivity | discriminate].
  - vm_compute; reflexivity.
  - vm_compute; reflexivity.
  - reflexivity.
  - exists updated. destruct (Hnew "new" eq_refl) as [Hd Hrest].
    split_and!.
    + by rewrite Hrun.
    + exact Hd.
    + rewrite Hrest by (apply elem_of_cons; left; reflexivity). vm_compute; reflexivity.
    + exact Hat.
Defined.

(** C10: whatever the body says, a successful update keeps the stored
    book's id, userId and createdAt. *)
Theorem put_my_book_keeps_identity e req s id :
  req_route req = PutMyBook id →
  status (app e req s).1 = 200%nat →
  ∃ old new,
    s !! ("book:" ++ id) = Some (JObj old)
    ∧ (app e req s).2 !! ("book:" ++ id) = Some (JObj new)
    ∧ ∀ k, k ∈ ["id"; "userId"; "createdAt"] → new !! k = old !! k.
Proof.
  intros Hroute Hok.
  assert (∀ u, authenticated e req u →
            ∃ old new, s !! ("book:" ++ id) = Some (JObj old)
              ∧ (app e req s).2 !! ("book:" ++ id) = Some (JObj new)
              ∧ ∀ k, k ∈ ["id"; "userId"; "createdAt"] → new !! k = old !! k) as Hauth.
  { intros u Hu. revert Hok. rewrite (put_my_book_run e req s u id) by done.
    destruct (s !! ("book:" ++ id)) as [[| | | | |old]|]; try done.
    destruct (strict_eq_str _ _); [|done].
    destruct (json_body req) as [body|]; [|done].
    destruct body; try done; intros _; cbn [snd]; rewrite lookup_insert_eq;
      (eexists old, _; split_and!; [done.. |]);
      intros k Hk; each_field Hk; fields. }
  destruct (protected_cases e req) as [[u Hu] | Hno]; [by apply (Hauth u)|].
  revert Hok. unfold app. rewrite Hroute. unfold put_my_book. by rewrite Hno.
Qed.

Lemma put_my_book_keeps_identity_witness :
  let s : store :=
    {[ "book:b1" := Sample.record [("id", JStr "b1"); ("title", JStr "Dune");
                                   ("userId", JStr "alice"); ("createdAt", JStr "2024-01-01T00:00:00.000Z")] ]} in
  let req := Sample.request_of (PutMyBook "b1") "token-a"
               (Sample.record [("id", JStr "b2"); ("userId", JStr "bob"); ("createdAt", JStr "never")]) in
  ∃ old new,
    s !! "book:b1" = Some (JObj old)
    ∧ (app (Sample.world 7) req s).2 !! "book:b1" = Some (JObj new)
    ∧ ∀ k, k ∈ ["id"; "userId"; "createdAt"] → new !! k = old !! k.
Proof.
  intros s req.
  apply (put_my_book_keeps_identity (Sample.world 7) req s "b1").
  - reflexivity.
  - vm_compute; reflexivity.
Defined.

(** *** The profile *)

Lemma get_my_profile_run e req s u :
  req_route req = GetMyProfile →
  authenticated e req u →
  app e req s = (json 200 [("user", s !! ("user:" ++ u))], s).
Proof. intros Hroute Hauth. by enter u. Qed.

Lemma put_my_profile_run e req s u :
  req_route req = PutMyProfile →
  authenticated e req u →
  app e req s =
  if truthy (s !! ("user:" ++ u)) then
    match json_body req with
    | None | Some JNull => (json 500 (error_body "Failed to update profile"), s)
    | Some body =>
        (json 200 [("success", Some (JBool true));
                   ("user", Some (updated_user e body (s !! ("user:" ++ u))))],
         <["user:" ++ u := updated_user e body (s !! ("user:" ++ u))]> s)
    end
  else (json 404 (error_body "User not found"), s).
Proof.
  intros Hroute Hauth. enter u.
  rewrite bind_kv_get; cbv beta.
  destruct (truthy (s !! ("user:" ++ u))) eqn:Huser; [|done]. cbn [negb].
  rewrite bind_req_json. destruct (json_body req) as [body|]; [|done].
  assert (body = JNull ∨ body ≠ JNull) as [->|Hnn]
    by (destruct body; auto; right; done); [done|].
  rewrite !coalesce_run, !if_defined_run by done. binds.
  rewrite bind_kv_set. cbv beta. unfold ret.
  by destruct body.
Qed.




(** *** What the stored records look like *)

Lemma well_keyed_empty : well_keyed ∅.
Proof. split; intros k v; by rewrite lookup_empty. Qed.

Lemma well_keyed_subseteq (s s' : store) : s' ⊆ s → well_keyed s → well_keyed s'.
Proof.
  intros Hsub [Hb Hc Hu].
  split; intros k v Hk; [apply (Hb k) | apply (Hc k) | apply (Hu k)];
    by eapply lookup_weaken.
Qed.

Lemma well_keyed_insert_book (s : store) k o :
  o !! "id" = Some (JStr k) →
  well_keyed s → well_keyed (<["book:" ++ k := JObj o]> s).
Proof.
  intros Hid [Hb Hc Hu].
  split; intros k' v [[Hk <-] | [Hk Hv]]%lookup_insert_Some; eauto; simplify_eq/=; eauto.
Qed.

Lemma well_keyed_insert_collection (s : store) k o u :
  o !! "id" = Some (JStr k) → o !! "userId" = Some (JStr u) →
  well_keyed s → well_keyed (<["collection:" ++ k := JObj o]> s).
Proof.
  intros Hid Huid [Hb Hc Hu].
  split; intros k' v [[Hk <-] | [Hk Hv]]%lookup_insert_Some; eauto; simplify_eq/=; eauto.
Qed.

Lemma well_keyed_insert_user (s : store) k o :
  truthy (o !! "name") = true →
  well_keyed s → well_keyed (<["user:" ++ k := JObj o]> s).
Proof.
  intros Hname [Hb Hc Hu].
  split; intros k' v [[Hk <-] | [Hk Hv]]%lookup_insert_Some; eauto; simplify_eq/=; eauto.
Qed.

Lemma keeps_ret P {A} (a : A) : keeps P (ret a).
Proof. by intros s. Qed.

Lemma keeps_throw P {A} : keeps P (@throw A).
Proof. by intros s. Qed.

Lemma keeps_lift P {A} (r : res A) : keeps P (lift r).
Proof. by intros s. Qed.

Lemma keeps_kv_get P key : keeps P (kv_get key).
Proof. by intros s. Qed.

Lemma keeps_kv_getByPrefix P p : keeps P (kv_getByPrefix p).
Proof. by intros s. Qed.

Lemma keeps_req_json P req : keeps P (req_json req).
Proof. intros s. unfold req_json. by destruct (json_body req). Qed.

Lemma keeps_bind P {A B} (m : M A) (k : A → M B) :
  keeps P m → (∀ a, keeps P (k a)) → keeps P (bind m k).
Proof.
  intros Hm Hk s Hs. unfold bind.
  specialize (Hm s Hs). destruct (m s) as [[a|] s']; [|done].
  by apply Hk.
Qed.

Lemma keeps_mapM P {A B} (f : A → M B) l :
  (∀ x, keeps P (f x)) → keeps P (mapM f l).
Proof.
  intros Hf. induction l as [|x l IH]; simpl.
  - apply keeps_ret.
  - apply keeps_bind; [done|]. intros y.
    apply keeps_bind; [done|]. intros ys. apply keeps_ret.
Qed.

Lemma keeps_kv_del key : keeps well_keyed (kv_del key).
Proof. intros s Hs. simpl. eapply well_keyed_subseteq; [apply delete_subseteq | done]. Qed.

Lemma try_catch_snd body msg s : (try_catch body msg s).2 = (body s).2.
Proof. unfold try_catch. by destruct (body s) as [[]]. Qed.

Ltac keeps_step :=
  first
    [ apply keeps_ret | apply keeps_throw | apply keeps_lift | apply keeps_kv_get
    | apply keeps_kv_getByPrefix | apply keeps_req_json | apply keeps_kv_del
    | apply keeps_mapM; intros ?
    | apply keeps_bind; [|intros ?]
    | match goal with
      | |- keeps _ (if ?c then _ else _) => destruct c eqn:?
      | |- keeps _ (match ?x with _ => _ end) => destruct x eqn:?
      end ].

Ltac as_keeps :=
  match goal with
  | |- ∀ s, ?P s → ?P (?m s).2 => change (keeps P m)
  end.

Lemma app_well_keyed e req s : well_keyed s → well_keyed (app e req s).2.
Proof.
  intros Hs.
  destruct (req_route req) eqn:Hroute.
  - (* sign-up *)
    unfold app; rewrite Hroute; unfold post_signup. rewrite try_catch_snd.
    revert s Hs. cbv zeta. as_keeps. repeat keeps_step.
    intros s Hs. apply well_keyed_insert_user; [|done].
    fields. by destruct (truthy a0), (truthy a1), (truthy a2).
  - unfold app; rewrite Hroute; unfold get_books. rewrite try_catch_snd.
    revert s Hs. cbv zeta. as_keeps. repeat keeps_step.
  - unfold app; rewrite Hroute; unfold get_collections. rewrite try_catch_snd.
    revert s Hs. unfold enrich. as_keeps. repeat keeps_step.
  - unfold app; rewrite Hroute; unfold get_user_collections. rewrite try_catch_snd.
    revert s Hs. cbv zeta. as_keeps. repeat keeps_step.
  - unfold app; rewrite Hroute; unfold get_collection_books. rewrite try_catch_snd.
    revert s Hs. cbv zeta. as_keeps. repeat keeps_step.
  - unfold app; rewrite Hroute; unfold get_my_books, protected. rewrite try_catch_snd.
    revert s Hs. cbv zeta. as_keeps. repeat keeps_step.
  - unfold app; rewrite Hroute; unfold get_my_collections, protected. rewrite try_catch_snd.
    revert s Hs. cbv zeta. as_keeps. repeat keeps_step.
  - unfold app; rewrite Hroute; unfold post_my_collections, protected. rewrite try_catch_snd.
    revert s Hs. cbv zeta. as_keeps. repeat keeps_step.
    intros s Hs. eapply well_keyed_insert_collection; [| |done]; fields.
  - unfold app; rewrite Hroute; unfold post_my_books, protected. rewrite try_catch_snd.
    revert s Hs. cbv zeta. as_keeps. repeat keeps_step.
    intros s Hs. eapply well_keyed_insert_book; [|done]. fields.
  - destruct (protected_cases e req) as [[u Hu] | Hno].
    + rewrite (put_my_book_run e req s u id) by done.
      destruct (s !! ("book:" ++ id)) as [[| | | | |book]|] eqn:Hbook; try done.
      destruct (strict_eq_str _ _); [|done].
      destruct (wk_book s Hs id _ Hbook) as (o & [= <-] & Hid).
      destruct (json_body req) as [body|]; [|done].
      destruct body; try done; cbn [snd];
        (eapply well_keyed_insert_book; [|done]); fields.
    + unfold app; rewrite Hroute; unfold put_my_book. by rewrite Hno.
  - unfold app; rewrite Hroute; unfold delete_my_book, protected. rewrite try_catch_snd.
    revert s Hs. cbv zeta. as_keeps. repeat keeps_step.
  - unfold app; rewrite Hroute; unfold delete_my_collection, protected. rewrite try_catch_snd.
    revert s Hs. unfold delete_book_of. cbv zeta. as_keeps. repeat keeps_step.
  - unfold app; rewrite Hroute; unfold get_my_profile, protected. rewrite try_catch_snd.
    revert s Hs. cbv zeta. as_keeps. repeat keeps_step.
  - destruct (protected_cases e req) as [[u Hu] | Hno].
    + rewrite (put_my_profile_run e req s u) by done.
      destruct (s !! ("user:" ++ u)) as [user|] eqn:Huser; [|done].
      destruct (wk_user s Hs u _ Huser) as (o & -> & Hname). cbn [truthy].
      destruct (json_body req) as [body|]; [|done].
      destruct body; try done; cbn [snd];
        (eapply well_keyed_insert_user; [|done]);
        unfold updated_user; fields; unfold js_or;
        try by rewrite Hname.
      by destruct (truthy (o0 !! "name")) eqn:E.
    + unfold app; rewrite Hroute; unfold put_my_profile. by rewrite Hno.
Qed.

Lemma reachable_well_keyed s : reachable s → well_keyed s.
Proof.
  induction 1 as [|e req s _ IH]; [apply well_keyed_empty | by apply app_well_keyed].
Qed.

(** *** Scanning the store *)

Lemma elem_of_scan p (s : store) v : v ∈ scan p s ↔ ∃ k, s !! (p ++ k) = Some v.
Proof.
  unfold scan. rewrite list_elem_of_fmap. split.
  - intros ([key v'] & -> & Hin). apply elem_of_map_to_list in Hin.
    apply map_lookup_filter_Some in Hin as [Hkey Hp]. simpl in *.
    apply Is_true_true, startsWith_inv in Hp as [k ->]. by exists k.
  - intros [k Hk]. exists (p ++ k, v). split; [done|].
    apply elem_of_map_to_list, map_lookup_filter_Some. split; [done|].
    simpl. apply Is_true_true, startsWith_app.
Qed.

Lemma bind_kv_getByPrefix {B} p (k : list value → M B) s :
  bind (kv_getByPrefix p) k s = k (scan p s) s.
Proof. done. Qed.

Lemma elem_of_filter_bool {A} (f : A → bool) l x :
  x ∈ List.filter f l ↔ f x = true ∧ x ∈ l.
Proof.
  induction l as [|y l IH]; simpl.
  - split; [by intros ?%elem_of_nil | by intros [_ ?%elem_of_nil]].
  - destruct (f y) eqn:Hy.
    + rewrite !elem_of_cons, IH.
      split; [intros [-> | [? ?]]; auto | intros [? [-> | ?]]; auto].
    + rewrite elem_of_cons, IH.
      split; [intros [? ?]; auto | intros [Hx [-> | ?]]; [congruence | auto]].
Qed.

Lemma filter_by_run field wanted l :
  Forall (λ r, r ≠ JNull) l →
  filter_by field wanted l
  = Ret (List.filter (λ r, strict_eq_str (opt_member (Some r) field) wanted) l).
Proof.
  unfold filter_by. induction 1 as [|r l Hr _ IH]; [done|].
  cbn [filterM List.filter]. rewrite member_not_null, IH by done.
  cbn [res_bind]. by destruct (strict_eq_str _ _).
Qed.

(** *** Deleting a collection *)

Lemma delete_book_of_run o k s :
  o !! "id" = Some (JStr k) →
  delete_book_of (JObj o) s = (Ret (), delete ("book:" ++ k) s).
Proof.
  intros Hid. unfold delete_book_of.
  rewrite bind_lift. cbn [member]. rewrite Hid. by rewrite bind_lift.
Qed.

Lemma elem_of_book_keys key l :
  key ∈ book_keys l ↔
  ∃ b k, b ∈ l ∧ opt_member (Some b) "id" = Some (JStr k) ∧ key = "book:" ++ k.
Proof.
  unfold book_keys. rewrite list_elem_of_omap. split.
  - intros (b & Hb & Hkey). exists b.
    destruct (opt_member (Some b) "id") as [[]|]; try done.
    injection Hkey as <-. eauto.
  - intros (b & k & Hb & Hid & ->). exists b. by rewrite Hid.
Qed.

Lemma cascade_run l s :
  Forall (λ b, ∃ o k, b = JObj o ∧ o !! "id" = Some (JStr k)) l →
  ∃ r s',
    mapM delete_book_of l s = (Ret r, s')
    ∧ ∀ key, s' !! key = if decide (key ∈ book_keys l) then None else s !! key.
Proof.
  intros Hl. revert s.
  induction Hl as [|b l (o & k & -> & Hid) _ IH]; intros s.
  - exists [], s. split; [done|]. intros key.
    rewrite decide_False; [done | apply not_elem_of_nil].
  - destruct (IH (delete ("book:" ++ k) s)) as (r & s' & Hrun & Hlook).
    exists (() :: r), s'. split.
    + cbn [mapM]. unfold bind at 1. rewrite (delete_book_of_run o k) by done.
      unfold bind at 1. by rewrite Hrun.
    + intros key. rewrite Hlook.
      assert (book_keys (JObj o :: l) = ("book:" ++ k) :: book_keys l) as ->.
      { unfold book_keys. simpl. by rewrite Hid. }
      destruct (decide (key = "book:" ++ k)) as [->|Hne].
      * rewrite lookup_delete_eq, (decide_True (P := _ ∈ _ :: _)) by (by left).
        by destruct (decide _).
      * rewrite lookup_delete_ne by done.
        destruct (decide (key ∈ book_keys l)) as [Hin|Hout].
        -- rewrite decide_True; [done | by right].
        -- rewrite decide_False; [done|]. by intros [?|?]%elem_of_cons.
Qed.

Lemma delete_my_collection_reachable e req s u cid collection :
  reachable s →
  req_route req = DeleteMyCollection cid →
  authenticated e req u →
  s !! ("collection:" ++ cid) = Some collection →
  owned_by (Some collection) u = true →
  ∃ books r s1 s',
    app e req s = (json 200 [("success", Some (JBool true))], s')
    ∧ opt_member (Some collection) "id" = Some (JStr cid)
    ∧ filter_by "collectionId" cid (scan "book:" s) = Ret books
    ∧ mapM delete_book_of books s = (Ret r, s1)
    ∧ s' = delete ("collection:" ++ cid) s1
    ∧ s' !! ("collection:" ++ cid) = None
    ∧ (∀ k book, s !! ("book:" ++ k) = Some book →
         opt_member (Some book) "collectionId" = Some (JStr cid) →
         s' !! ("book:" ++ k) = None)
    ∧ (∀ key v, s' !! key = Some v → s !! key = Some v)
    ∧ (∀ key v, s !! key = Some v →
         key ≠ "collection:" ++ cid →
         (∀ k, key = "book:" ++ k →
            opt_member (Some v) "collectionId" ≠ Some (JStr cid)) →
         s' !! key = Some v)
    ∧ (∀ book, book ∈ scan "book:" s' →
         opt_member (Some book) "collectionId" ≠ Some (JStr cid))
    ∧ (∀ c, c ∈ scan "collection:" s' → opt_member (Some c) "id" ≠ Some (JStr cid)).
Proof.
  intros Hwk%reachable_well_keyed Hroute Hauth Hcollection Hown.
  destruct (wk_collection s Hwk cid _ Hcollection) as (co & owner & -> & Hcid & _).
  set (books := List.filter
                  (λ b, strict_eq_str (opt_member (Some b) "collectionId") cid)
                  (scan "book:" s)).
  assert (filter_by "collectionId" cid (scan "book:" s) = Ret books) as Hfilter.
  { apply filter_by_run, Forall_forall. intros b [k Hk]%elem_of_scan.
    by destruct (wk_book s Hwk k _ Hk) as (o & -> & _). }
  assert (∀ b, b ∈ books ↔
            ∃ k o, b = JObj o ∧ s !! ("book:" ++ k) = Some b
                   ∧ o !! "id" = Some (JStr k)
                   ∧ o !! "collectionId" = Some (JStr cid)) as Hbooks.
  { intros b. unfold books. rewrite elem_of_filter_bool, elem_of_scan. split.
    - intros [Heq [k Hk]]. destruct (wk_book s Hwk k _ Hk) as (o & -> & Hid).
      exists k, o. split_and!; try done.
      revert Heq. cbn [opt_member]. unfold strict_eq_str.
      destruct (o !! "collectionId") as [[]|]; try done.
      by intros ->%String.eqb_eq.
    - intros (k & o & -> & Hk & _ & Hc). split; [|by exists k].
      cbn [opt_member]. rewrite Hc. apply String.eqb_refl. }
  destruct (cascade_run books s) as (r & s1 & Hrun & Hlook).
  { apply Forall_forall. intros b (k & o & -> & _ & Hid & _)%Hbooks. eauto. }
  assert (∀ key, key ∈ book_keys books ↔
            ∃ k o, key = "book:" ++ k ∧ s !! key = Some (JObj o)
                   ∧ o !! "collectionId" = Some (JStr cid)) as Hkeys.
  { intros key. rewrite elem_of_book_keys. split.
    - intros (b & k & (k' & o & -> & Hk & Hid & Hc)%Hbooks & Hid' & ->).
      cbn [opt_member] in Hid'. rewrite Hid in Hid'. injection Hid' as <-.
      by exists k', o.
    - intros (k & o & -> & Hk & Hc).
      destruct (wk_book s Hwk k _ Hk) as (o' & [= <-] & Hid).
      exists (JObj o), k. split_and!; try done.
      apply Hbooks. by exists k, o. }
  assert (∀ key v, delete ("collection:" ++ cid) s1 !! key = Some v → s !! key = Some v)
    as Hsub.
  { intros key v [_ Hv]%lookup_delete_Some. revert Hv. rewrite Hlook.
    by destruct (decide _). }
  assert (well_keyed (delete ("collection:" ++ cid) s1)) as Hwk'.
  { eapply well_keyed_subseteq; [|exact Hwk].
    apply map_subseteq_spec. intros key v. apply Hsub. }
  exists books, r, s1, (delete ("collection:" ++ cid) s1).
  split_and!; try done.
  - enter u. rewrite bind_kv_get, Hcollection; cbv beta.
    rewrite ownership_test, Hown, bind_kv_getByPrefix, bind_lift, Hfilter.
    unfold bind at 1. rewrite Hrun. by rewrite bind_kv_del.
  - apply lookup_delete_eq.
  - intros k book Hk Hc. rewrite lookup_delete_ne by done.
    rewrite Hlook, decide_True; [done|]. apply Hkeys.
    destruct (wk_book s Hwk k _ Hk) as (o & -> & _). by exists k, o.
  - intros key v Hv Hne Hkeep. rewrite lookup_delete_ne by done.
    rewrite Hlook, decide_False; [done|].
    intros (k & o & -> & Hk & Hc)%Hkeys. simplify_eq. by eapply Hkeep.
  - intros book [k Hk]%elem_of_scan Hc.
    pose proof (Hsub _ _ Hk) as Hs.
    apply lookup_delete_Some in Hk as [_ Hk].
    rewrite Hlook, decide_True in Hk; [done|]. apply Hkeys.
    destruct (wk_book s Hwk k _ Hs) as (o & -> & _). by exists k, o.
  - intros c [k Hk]%elem_of_scan Hid.
    destruct (wk_collection _ Hwk' k _ Hk) as (o & ? & -> & Hid' & _).
    cbn [opt_member] in Hid. rewrite Hid' in Hid. injection Hid as ->.
    by rewrite lookup_delete_eq in Hk.
Qed.

Lemma template_prefix p v key : template p v = Ret key → ∃ t, key = p ++ t.
Proof.
  unfold template. destruct v as [x|]; [|intros [= <-]; eauto].
  destruct (to_string x) as [t|]; [|done]. intros [= <-]. eauto.
Qed.

Lemma delete_book_of_other book s key :
  startsWith "book:" key = false → (delete_book_of book s).2 !! key = s !! key.
Proof.
  intros Hkey. unfold delete_book_of.
  rewrite bind_lift. destruct (member (Some book) "id") as [id|]; [|done].
  rewrite bind_lift. destruct (template "book:" id) as [k|] eqn:Hk; [|done].
  apply template_prefix in Hk as [t ->]. cbn [kv_del snd].
  apply lookup_delete_ne. intros <-. by rewrite startsWith_app in Hkey.
Qed.

Lemma cascade_other books s key :
  startsWith "book:" key = false →
  (mapM delete_book_of books s).2 !! key = s !! key.
Proof.
  intros Hkey. revert s. induction books as [|book books IH]; intros s; [done|].
  cbn [mapM]. unfold bind at 1.
  pose proof (delete_book_of_other book s key Hkey) as Hfirst.
  destruct (delete_book_of book s) as [[[]|] s1]; cbn [snd] in Hfirst; [|done].
  unfold bind at 1, ret. specialize (IH s1).
  destruct (mapM delete_book_of books s1) as [[r|] s2]; cbn [snd] in *; congruence.
Qed.

Lemma delete_my_collection_run e req s u cid :
  req_route req = DeleteMyCollection cid →
  authenticated e req u →
  owned_by (s !! ("collection:" ++ cid)) u = true →
  app e req s =
  match filter_by "collectionId" cid (scan "book:" s) with
  | Exn => (json 500 (error_body "Failed to delete collection"), s)
  | Ret books =>
      match mapM delete_book_of books s with
      | (Ret _, s1) =>
          (json 200 [("success", Some (JBool true))], delete ("collection:" ++ cid) s1)
      | (Exn, s1) => (json 500 (error_body "Failed to delete collection"), s1)
      end
  end.
Proof.
  intros Hroute Hauth Hown. enter u.
  rewrite bind_kv_get; cbv beta.
  rewrite ownership_test, Hown, bind_kv_getByPrefix, bind_lift.
  destruct (filter_by "collectionId" cid (scan "book:" s)) as [books|]; [|done].
  unfold bind at 1. destruct (mapM delete_book_of books s) as [[r|] s1]; [|done].
  by rewrite bind_kv_del.
Qed.

Lemma delete_my_collection_keeps_until_done e req s cid :
  req_route req = DeleteMyCollection cid →
  status (app e req s).1 ≠ 200%nat →
  (app e req s).2 !! ("collection:" ++ cid) = s !! ("collection:" ++ cid).
Proof.
  intros Hroute.
  destruct (protected_cases e req) as [[u Hu] | Hno].
  2:{ unfold app. rewrite Hroute. unfold delete_my_collection. by rewrite Hno. }
  destruct (owned_by (s !! ("collection:" ++ cid)) u) eqn:Hown.
  2:{ enter u. rewrite bind_kv_get; cbv beta. by rewrite ownership_test, Hown. }
  rewrite (delete_my_collection_run e req s u cid) by done.
  destruct (filter_by "collectionId" cid (scan "book:" s)) as [books|]; [|done].
  pose proof (cascade_other books s ("collection:" ++ cid) eq_refl) as Hkept.
  by destruct (mapM delete_book_of books s) as [[r|] s1].
Qed.

(** C4: when its owner deletes a collection, the books' deletes run first
    and the collection's delete only after all of them have returned: a
    deletion that is not answered 200 has left the collection record in
    place, and one whose cascade throws answers 500 from the store the
    cascade reached.  In every store the server reaches the cascade runs
    through: every book whose collectionId is the collection's id is
    removed, so is the collection record, and nothing else changes. *)
Theorem delete_my_collection_cascades e req s u cid collection :
  req_route req = DeleteMyCollection cid →
  (status (app e req s).1 ≠ 200%nat →
     (app e req s).2 !! ("collection:" ++ cid) = s !! ("collection:" ++ cid))
  ∧ (authenticated e req u →
     s !! ("collection:" ++ cid) = Some collection →
     owned_by (Some collection) u = true →
     (∀ books, filter_by "collectionId" cid (scan "book:" s) = Ret books →
        app e req s =
        match mapM delete_book_of books s with
        | (Ret _, s1) =>
            (json 200 [("success", Some (JBool true))], delete ("collection:" ++ cid) s1)
        | (Exn, s1) => (json 500 (error_body "Failed to delete collection"), s1)
        end)
     ∧ (reachable s →
        ∃ books r s1 s',
          app e req s = (json 200 [("success", Some (JBool true))], s')
          ∧ opt_member (Some collection) "id" = Some (JStr cid)
          ∧ filter_by "collectionId" cid (scan "book:" s) = Ret books
          ∧ mapM delete_book_of books s = (Ret r, s1)
          ∧ s' = delete ("collection:" ++ cid) s1
          ∧ s' !! ("collection:" ++ cid) = None
          ∧ (∀ k book, s !! ("book:" ++ k) = Some book →
               opt_member (Some book) "collectionId" = Some (JStr cid) →
               s' !! ("book:" ++ k) = None)
          ∧ (∀ key v, s' !! key = Some v → s !! key = Some v)
          ∧ (∀ key v, s !! key = Some v →
               key ≠ "collection:" ++ cid →
               (∀ k, key = "book:" ++ k →
                  opt_member (Some v) "collectionId" ≠ Some (JStr cid)) →
               s' !! key = Some v)
          ∧ (∀ book, book ∈ scan "book:" s' →
               opt_member (Some book) "collectionId" ≠ Some (JStr cid))
          ∧ (∀ c, c ∈ scan "collection:" s' →
               opt_member (Some c) "id" ≠ Some (JStr cid)))).
Proof.
  intros Hroute. split; [by apply delete_my_collection_keeps_until_done|].
  intros Hauth Hcollection Hown. split.
  - intros books Hbooks.
    rewrite (delete_my_collection_run e req s u cid), Hbooks by (by rewrite ?Hcollection).
    reflexivity.
  - intros Hreach. by apply (delete_my_collection_reachable e req s u cid collection).
Qed.

Lemma delete_my_collection_cascades_witness :
  let req := Sample.request_of (DeleteMyCollection "1-k3j9x0q1z") "token-a" JNull in
  let torn := Sample.request_of (DeleteMyCollection "c1") "token-a" JNull in
  (status (app (Sample.world 3) torn torn_shelf).1 = 500%nat
   ∧ (app (Sample.world 3) torn torn_shelf).2 !! "collection:c1"
     = torn_shelf !! "collection:c1")
  ∧ ∃ s',
      app (Sample.world 3) req Sample.alice_library
      = (json 200 [("success", Some (JBool true))], s')
      ∧ s' !! "collection:1-k3j9x0q1z" = None
      ∧ s' !! "book:2-k3j9x0q1z" = None.
Proof.
  intros req torn. split.
  - split; [vm_compute; reflexivity|].
    apply (delete_my_collection_cascades (Sample.world 3) torn torn_shelf "alice" "c1" JNull).
    + reflexivity.
    + vm_compute. discriminate.
  - destruct (delete_my_collection_cascades (Sample.world 3) req Sample.alice_library
                "alice" "1-k3j9x0q1z"
                (object [("id", Some (JStr "1-k3j9x0q1z"));
                         ("name", Some (JStr "Sci-Fi"));
                         ("description", Some (JStr ""));
                         ("userId", Some (JStr "alice"));
                         ("createdAt", Some (JStr "2024-05-01T10:00:00.000Z"))] ∅))
      as (_ & Howner); [reflexivity|].
    destruct Howner as (_ & Hreach).
    + split; [reflexivity | discriminate].
    + vm_compute; reflexivity.
    + vm_compute; reflexivity.
    + destruct Hreach
        as (books & r & s1 & s' & Hrun & _ & _ & _ & _ & Hgone & Hbooks & _).
      * apply reachable_step, reachable_step, reachable_empty.
      * exists s'. split_and!; [exact Hrun | exact Hgone |].
        eapply (Hbooks "2-k3j9x0q1z"); vm_compute; reflexivity.
Defined.

(** *** Listing the collections *)

Lemma enrich_run s o owner :
  o !! "userId" = Some (JStr owner) →
  enrich (JObj o) s
  = (Ret (object [("userName",
                   js_or (opt_member (s !! ("user:" ++ owner)) "name")
                     (Some (JStr "Unknown User")))] o), s).
Proof.
  intros Howner. unfold enrich.
  rewrite bind_lift. cbn [member]. rewrite Howner.
  rewrite bind_lift. cbn [template to_string res_bind].
  by rewrite bind_kv_get.
Qed.

Lemma mapM_enrich s l :
  well_keyed s →
  Forall (λ c, ∃ o owner, c = JObj o ∧ o !! "userId" = Some (JStr owner)) l →
  ∃ entries, mapM enrich l s = (Ret entries, s) ∧ Forall2 (carries_owner_name s) l entries.
Proof.
  intros Hwk. induction 1 as [|c l (o & owner & -> & Howner) _ (entries & Hrun & Hall)].
  - exists []. split; [done | constructor].
  - eexists (_ :: entries). split.
    + cbn [mapM]. unfold bind at 1. rewrite (enrich_run s o owner) by done.
      unfold bind at 1. rewrite Hrun. reflexivity.
    + constructor; [|done].
      destruct (s !! ("user:" ++ owner)) as [user|] eqn:Huser.
      * destruct (wk_user s Hwk owner _ Huser) as (uo & -> & Hname).
        destruct (uo !! "name") as [name|] eqn:Hn; [|done].
        exists o, owner, name. rewrite Huser.
        split_and!; try done.
        unfold object, js_or. cbn [foldl fst snd opt_member]. by rewrite Hn, Hname.
      * exists o, owner, (JStr "Unknown User"). rewrite Huser. done.
Qed.

(** C8: every entry of GET /collections is its collection plus a userName,
    the name in the owner's user record or "Unknown User" when the owner
    has no record. *)
Theorem get_collections_names_owners e req s :
  reachable s →
  req_route req = GetCollections →
  ∃ entries,
    app e req s = (json 200 [("collections", Some (JArr entries))], s)
    ∧ Forall2 (carries_owner_name s) (scan "collection:" s) entries.
Proof.
  intros Hwk%reachable_well_keyed Hroute.
  destruct (mapM_enrich s (scan "collection:" s) Hwk) as (entries & Hrun & Hall).
  { apply Forall_forall. intros c [k Hk]%elem_of_scan.
    destruct (wk_collection s Hwk k _ Hk) as (o & owner & -> & _ & Howner). eauto. }
  exists entries. split; [|done].
  unfold app. rewrite Hroute. unfold get_collections, try_catch.
  rewrite bind_kv_getByPrefix. unfold bind at 1. by rewrite Hrun.
Qed.

Lemma get_collections_names_owners_witness :
  let req := {| req_route := GetCollections; authorization := None; json_body := None |} in
  ∃ entries,
    app (Sample.world 3) req Sample.alice_library
    = (json 200 [("collections", Some (JArr entries))], Sample.alice_library)
    ∧ Forall2 (carries_owner_name Sample.alice_library)
        (scan "collection:" Sample.alice_library) entries.
Proof.
  intros req.
  apply (get_collections_names_owners (Sample.world 3) req Sample.alice_library).
  - apply reachable_step, reachable_step, reachable_empty.
  - reflexivity.
Defined.

(** *** Books and the owners of their collections *)

(** The create path does check the owner: a book that POST /my/books stores
    names a collection of the caller. *)
Lemma post_my_books_checks_owner e req s u :
  req_route req = PostMyBooks →
  authenticated e req u →
  status (app e req s).1 = 200%nat →
  ∃ book key collection,
    (app e req s).2 = <["book:" ++ generateId e := JObj book]> s
    ∧ book !! "userId" = Some (JStr u)
    ∧ template "collection:" (book !! "collectionId") = Ret key
    ∧ s !! key = Some collection
    ∧ opt_member (Some collection) "userId" = Some (JStr u).
Proof.
  intros Hroute Hauth. enter u.
  rewrite bind_req_json. destruct (json_body req) as [body|]; [|done].
  assert (body = JNull ∨ body ≠ JNull) as [->|Hnn]
    by (destruct body; auto; right; done); [done|].
  rewrite !member_not_null by done. do 5 (rewrite bind_lift; cbv beta iota).
  destruct (truthy (opt_member (Some body) "title")); [|done].
  destruct (truthy (opt_member (Some body) "collectionId")) eqn:Hcid; [|done].
  cbn [negb orb]. rewrite bind_lift.
  destruct (template "collection:" (opt_member (Some body) "collectionId"))
    as [key|] eqn:Hkey; [|done].
  rewrite bind_kv_get; cbv beta. rewrite ownership_test.
  destruct (owned_by (s !! key) u) eqn:Hown; [|done].
  rewrite bind_kv_set. intros _. cbn [snd].
  destruct (s !! key) as [collection|] eqn:Hcollection; [|done].
  eexists _, key, collection. split_and!; [reflexivity | fields | fields | done |].
  revert Hown. unfold owned_by, strict_eq_str.
  destruct (opt_member (Some collection) "userId") as [[]|]; try done.
  by intros ->%String.eqb_eq.
Qed.

(** C2 fails on the update path: POST /my/books checks that the collection
    is the caller's, PUT /my/books/:id takes any truthy collectionId.  Bob's
    book agrees with its collection until he moves it onto Alice's shelf;
    after that its userId is Bob and its collection's userId is Alice, in a
    store the server reaches. *)
Theorem book_update_breaks_owner_agreement :
  reachable Sample.before_move
  ∧ owners_agree Sample.before_move
  ∧ reachable Sample.after_move
  ∧ status (app (Sample.world 4) Sample.bob_moves_book Sample.before_move).1 = 200%nat
  ∧ (∃ book collection,
       Sample.after_move !! "book:3-k3j9x0q1z" = Some (JObj book)
       ∧ book !! "userId" = Some (JStr "bob")
       ∧ book !! "collectionId" = Some (JStr "1-k3j9x0q1z")
       ∧ Sample.after_move !! "collection:1-k3j9x0q1z" = Some (JObj collection)
       ∧ collection !! "userId" = Some (JStr "alice"))
  ∧ ¬ owners_agree Sample.after_move.
Proof.
  assert (reachable Sample.before_move) as Hbefore
    by apply reachable_step, reachable_step, reachable_step, reachable_empty.
  split_and!.
  - done.
  - intros k book Hbook%elem_of_map_to_list.
    vm_compute map_to_list in Hbook.
    repeat (apply elem_of_cons in Hbook as [Hbook | Hbook]; [try discriminate Hbook|]);
      [|by apply elem_of_nil in Hbook].
    injection Hbook as Hk ->. clear Hk.
    eexists _, _. split_and!; vm_compute; reflexivity.
  - by apply reachable_step.
  - vm_compute; reflexivity.
  - eexists _, _. split_and!; vm_compute; reflexivity.
  - intros Hagree.
    destruct (Hagree "3-k3j9x0q1z" _ ltac:(vm_compute; reflexivity))
      as (key & collection & Hkey & Hcollection & Howner).
    vm_compute in Hkey. injection Hkey as <-.
    vm_compute in Hcollection. injection Hcollection as <-.
    vm_compute in Howner. discriminate Howner.
Qed.

(** ** Further properties of the handlers *)

(** *** The bearer token *)

Lemma split_no_sep c t : contains c t = false → split c t = [t].
Proof.
  induction t as [|a t IH]; [done|]. cbn [contains split].
  intros [Ha Ht]%orb_false_iff. by rewrite Ha, IH.
Qed.

Lemma split_app_sep c t rest :
  contains c t = false → split c (t ++ String c rest) = t :: split c rest.
Proof.
  induction t as [|a t IH]; simpl.
  - intros _. by rewrite Ascii.eqb_refl.
  - intros [Ha Ht]%orb_false_iff. by rewrite Ha, IH.
Qed.

(** X1: [verifyUser] answers with a user id and no error, or with a
    non-empty error message and no user id, never with both or neither. *)
Theorem verifyUser_error_xor_user e req :
  (v_error (verifyUser e req) = None ∧ is_Some (v_userId (verifyUser e req)))
  ∨ (∃ message, v_error (verifyUser e req) = Some message
                ∧ message ≠ ""
                ∧ v_userId (verifyUser e req) = None).
Proof.
  unfold verifyUser.
  destruct (authorization req) as [h|]; [|right; by eexists].
  destruct (startsWith "Bearer " h); [|right; by eexists].
  destruct (getUser e (split " " h !! 1%nat)) as [[m|] [id|]]; cbn;
    try (left; by eauto);
    right; eexists; (split_and!; [done | | done]);
    unfold message_or; try done;
    by destruct (String.eqb_spec m "").
Qed.

(** X2: the token handed to the identity provider is the text between
    [Bearer ] and the next space; whatever follows that space is ignored. *)
Theorem verifyUser_bearer_token e req t :
  contains " " t = false →
  authorization req = Some ("Bearer " ++ t)
  ∨ (∃ rest, authorization req = Some ("Bearer " ++ t ++ " " ++ rest)) →
  verifyUser e req = verdict (getUser e (Some t)).
Proof.
  intros Ht Hheader. unfold verifyUser, verdict.
  assert (∃ h, authorization req = Some ("Bearer " ++ h)
               ∧ split " " ("Bearer " ++ h) !! 1%nat = Some t) as (h & -> & Htoken).
  { destruct Hheader as [Hh | [rest Hh]]; eexists; (split; [exact Hh|]).
    - change ("Bearer " ++ t) with ("Bearer" ++ String " " t).
      by rewrite split_app_sep, split_no_sep.
    - change ("Bearer " ++ t ++ " " ++ rest) with ("Bearer" ++ String " " (t ++ String " " rest)).
      by rewrite split_app_sep, split_app_sep. }
  by rewrite startsWith_app, Htoken.
Qed.

Lemma verifyUser_bearer_token_witness :
  verifyUser (Sample.world 7)
    {| req_route := GetMyBooks;
       authorization := Some "Bearer token-a trailing words";
       json_body := None |}
  = {| v_error := None; v_userId := Some "alice" |}.
Proof.
  apply (verifyUser_bearer_token (Sample.world 7) _ "token-a").
  - reflexivity.
  - right. exists "trailing words". reflexivity.
Defined.

(** *** Reading never writes *)

Ltac read_only s :=
  rewrite try_catch_snd; cbv zeta;
  match goal with
  | |- (?m s).2 = s =>
      let Hk := fresh "Hk" in
      assert (keeps (λ s', s' = s) m) as Hk;
      [unfold enrich; repeat keeps_step | exact (Hk s eq_refl)]
  end.

(** X3: no GET route changes the store, whatever it answers: listings,
    filters, the owner lookups of GET /collections and the profile fetch
    only read. *)
Theorem get_routes_read_only e req s :
  get_route (req_route req) = true → (app e req s).2 = s.
Proof.
  intros Hroute. unfold app.
  destruct (req_route req); try discriminate Hroute;
    unfold get_books, get_collections, get_user_collections, get_collection_books,
      get_my_books, get_my_collections, get_my_profile, protected;
    read_only s.
Qed.

Lemma get_routes_read_only_witness :
  (app (Sample.world 9)
     {| req_route := GetCollectionBooks "1-k3j9x0q1z"; authorization := None; json_body := None |}
     Sample.alice_library).2
  = Sample.alice_library.
Proof.
  apply (get_routes_read_only (Sample.world 9)
           {| req_route := GetCollectionBooks "1-k3j9x0q1z";
              authorization := None; json_body := None |} Sample.alice_library).
  reflexivity.
Defined.

(** *** A request that fails writes nothing *)

Lemma commits_ret r : commits_last (ret r).
Proof. intros s. by right. Qed.

Lemma commits_throw : commits_last throw.
Proof. by intros s. Qed.

Lemma commits_bind {A} (m : M A) (k : A → M response) :
  (∀ P, keeps P m) → (∀ a, commits_last (k a)) → commits_last (bind m k).
Proof.
  intros Hm Hk s. unfold bind.
  pose proof (Hm (λ s', s' = s) s eq_refl) as Hs.
  destruct (m s) as [[a|] s']; simpl in Hs; subst; [apply Hk | done].
Qed.

Lemma commits_write {A} (w : M A) r :
  status r = 200%nat → (∀ s, ∃ a s', w s = (Ret a, s')) →
  commits_last (bind w (λ _, ret r)).
Proof.
  intros Hr Hw s. unfold bind, ret. destruct (Hw s) as (a & s' & ->). by left.
Qed.

Lemma try_catch_commits m msg s :
  commits_last m →
  status (try_catch m msg s).1 ≠ 200%nat → (try_catch m msg s).2 = s.
Proof.
  intros Hm. specialize (Hm s). unfold try_catch.
  destruct (m s) as [[r|] s']; simpl; [|done].
  by destruct Hm.
Qed.

Ltac commits_step :=
  first
    [ apply commits_ret | apply commits_throw
    | apply commits_write; [reflexivity | intros ?; by eexists _, _]
    | apply commits_bind; [intros ?; unfold enrich; by repeat keeps_step | intros ?]
    | match goal with
      | |- commits_last (if ?c then _ else _) => destruct c eqn:?
      | |- commits_last (match ?x with _ => _ end) => destruct x eqn:?
      end ].

Lemma scan_books_not_null s : well_keyed s → Forall (λ r, r ≠ JNull) (scan "book:" s).
Proof.
  intros Hwk. apply Forall_forall. intros b [k Hk]%elem_of_scan.
  by destruct (wk_book s Hwk k _ Hk) as (o & -> & _).
Qed.

(** X4: apart from the deletion of a collection, a request that is not
    answered 200 leaves the store as it was: every other handler writes at
    most once, as its last step before the 200. *)
Theorem failed_request_writes_nothing e req s :
  (∀ id, req_route req ≠ DeleteMyCollection id) →
  status (app e req s).1 ≠ 200%nat →
  (app e req s).2 = s.
Proof.
  intros Hroute. unfold app.
  destruct (req_route req) eqn:Hr;
    try (apply try_catch_commits; unfold protected; cbv zeta; by repeat commits_step).
  by destruct (Hroute id).
Qed.

Lemma failed_request_writes_nothing_witness :
  (app (Sample.world 9)
     {| req_route := PostMyBooks; authorization := Some "Bearer token-a"; json_body := None |}
     Sample.alice_library).2
  = Sample.alice_library.
Proof.
  apply (failed_request_writes_nothing (Sample.world 9)
           {| req_route := PostMyBooks; authorization := Some "Bearer token-a";
              json_body := None |} Sample.alice_library).
  - intros id. discriminate.
  - vm_compute. discriminate.
Defined.

(** *** Signing up *)

Lemma post_signup_run e req s body :
  req_route req = PostSignup →
  json_body req = Some (JObj body) →
  app e req s =
  if negb (truthy (body !! "email")) || negb (truthy (body !! "password"))
     || negb (truthy (body !! "name"))
  then (json 400 (error_body "Email, password, and name are required"), s)
  else match createUser e (body !! "email") (body !! "password") (body !! "name") with
       | CreateError message => (json 400 (error_body message), s)
       | Created id user =>
           (json 200 [("success", Some (JBool true)); ("user", Some user)],
            <["user:" ++ id := user_record id (body !! "email") (body !! "name")]> s)
       end.
Proof.
  intros Hroute Hbody. unfold app. rewrite Hroute. unfold post_signup, try_catch.
  rewrite bind_req_json, Hbody; cbv beta iota.
  rewrite !member_object. binds.
  destruct (_ || _); [done|].
  by destruct (createUser e _ _ _).
Qed.

(** X5: a sign-up whose email, password or name is missing or falsy is
    answered 400 without asking the identity provider, and one the provider
    refuses is answered 400 with the provider's message; neither stores a
    user record. *)
Theorem post_signup_rejects e req s body :
  req_route req = PostSignup →
  json_body req = Some (JObj body) →
  (truthy (body !! "email") && truthy (body !! "password") && truthy (body !! "name") = false →
     app e req s = (json 400 (error_body "Email, password, and name are required"), s))
  ∧ (∀ message,
       truthy (body !! "email") && truthy (body !! "password") && truthy (body !! "name") = true →
       createUser e (body !! "email") (body !! "password") (body !! "name") = CreateError message →
       app e req s = (json 400 (error_body message), s)).
Proof.
  intros Hroute Hbody. rewrite (post_signup_run e req s body) by done.
  split.
  - by destruct (truthy (body !! "email")), (truthy (body !! "password")),
      (truthy (body !! "name")).
  - intros message Hall ->.
    by destruct (truthy (body !! "email")), (truthy (body !! "password")),
      (truthy (body !! "name")).
Qed.

Lemma post_signup_rejects_witness :
  let req := {| req_route := PostSignup; authorization := None;
                json_body := Some (Sample.record [("email", JStr "bob@example.org");
                                                  ("password", JStr "hunter2");
                                                  ("name", JStr "Bob")]) |} in
  app (Sample.world 7) req ∅ = (json 400 (error_body "User already registered"), ∅).
Proof.
  intros req.
  apply (post_signup_rejects (Sample.world 7) req ∅
           (list_to_map [("email", JStr "bob@example.org");
                         ("password", JStr "hunter2"); ("name", JStr "Bob")])).
  - reflexivity.
  - reflexivity.
  - vm_compute; reflexivity.
  - vm_compute; reflexivity.
Defined.

(** X6: after a successful sign-up, the profile fetched with the new
    user's credentials is the record sign-up stored: the id the provider
    issued and the email and name of the sign-up body. *)
Theorem signup_then_profile e req s body id user e' req' :
  req_route req = PostSignup →
  json_body req = Some (JObj body) →
  truthy (body !! "email") && truthy (body !! "password") && truthy (body !! "name") = true →
  createUser e (body !! "email") (body !! "password") (body !! "name") = Created id user →
  req_route req' = GetMyProfile →
  authenticated e' req' id →
  ∃ profile,
    (app e req s).1 = json 200 [("success", Some (JBool true)); ("user", Some user)]
    ∧ app e' req' (app e req s).2
      = (json 200 [("user", Some (JObj profile))], (app e req s).2)
    ∧ profile !! "id" = Some (JStr id)
    ∧ profile !! "email" = body !! "email"
    ∧ profile !! "name" = body !! "name".
Proof.
  intros Hroute Hbody Hall Hcreated Hroute' Hauth'.
  rewrite (post_signup_run e req s body), Hcreated by done.
  destruct (truthy (body !! "email")) eqn:He, (truthy (body !! "password")),
    (truthy (body !! "name")) eqn:Hn; try done. cbn [negb orb fst snd].
  rewrite (get_my_profile_run e' req' _ id), lookup_insert_eq by done.
  destruct (body !! "email") as [email|] eqn:Hemail; [|done].
  destruct (body !! "name") as [name|] eqn:Hname; [|done].
  eexists. split_and!; [done | reflexivity | ..];
    cbn [foldl fst snd set_field];
    repeat first [rewrite lookup_insert_eq | rewrite lookup_insert_ne by done]; done.
Qed.

Lemma signup_then_profile_witness :
  let req := {| req_route := PostSignup; authorization := None;
                json_body := Some (Sample.record [("email", JStr "alice@example.org");
                                                  ("password", JStr "correct horse");
                                                  ("name", JStr "Alice")]) |} in
  let req' := {| req_route := GetMyProfile; authorization := Some "Bearer token-a";
                 json_body := None |} in
  ∃ profile,
    (app (Sample.world 7) req ∅).1
    = json 200 [("success", Some (JBool true)); ("user", Some (JObj {[ "id" := JStr "alice" ]}))]
    ∧ app (Sample.world 8) req' (app (Sample.world 7) req ∅).2
      = (json 200 [("user", Some (JObj profile))], (app (Sample.world 7) req ∅).2)
    ∧ profile !! "id" = Some (JStr "alice")
    ∧ profile !! "email" = Some (JStr "alice@example.org")
    ∧ profile !! "name" = Some (JStr "Alice").
Proof.
  intros req req'.
  destruct (signup_then_profile (Sample.world 7) req ∅
              (list_to_map [("email", JStr "alice@example.org");
                            ("password", JStr "correct horse"); ("name", JStr "Alice")])
              "alice" (JObj {[ "id" := JStr "alice" ]}) (Sample.world 8) req')
    as (profile & Hanswer & Hfetch & Hid & Hemail & Hname).
  - reflexivity.
  - reflexivity.
  - vm_compute; reflexivity.
  - vm_compute; reflexivity.
  - reflexivity.
  - split; [reflexivity | discriminate].
  - exists profile. split_and!; [exact Hanswer | exact Hfetch | exact Hid | |].
    + rewrite Hemail. vm_compute; reflexivity.
    + rewrite Hname. vm_compute; reflexivity.
Defined.

(** *** What a creation stores *)

Lemma scan_insert p k v (s : store) : v ∈ scan p (<[p ++ k := v]> s).
Proof. apply elem_of_scan. exists k. apply lookup_insert_eq. Qed.

Ltac absent_field H :=
  cbn [foldl fst snd];
  repeat (first [rewrite lookup_set_field | rewrite lookup_insert];
          rewrite decide_False by (intros <-; apply H; set_solver));
  apply lookup_empty.

Lemma post_my_collections_run e req s u body :
  req_route req = PostMyCollections →
  authenticated e req u →
  json_body req = Some (JObj body) →
  app e req s =
  if negb (truthy (body !! "name"))
  then (json 400 (error_body "Collection name is required"), s)
  else (json 200 [("success", Some (JBool true));
                  ("collection", Some (new_collection e u body))],
        <["collection:" ++ generateId e := new_collection e u body]> s).
Proof.
  intros Hroute Hauth Hbody. enter u.
  rewrite bind_req_json, Hbody; cbv beta iota.
  rewrite !member_object. binds.
  by destruct (negb _).
Qed.

Lemma post_my_books_run e req s u body :
  req_route req = PostMyBooks →
  authenticated e req u →
  json_body req = Some (JObj body) →
  app e req s =
  if negb (truthy (body !! "title")) || negb (truthy (body !! "collectionId"))
  then (json 400 (error_body "Title and collection are required"), s)
  else match template "collection:" (body !! "collectionId") with
       | Exn => (json 500 (error_body "Failed to create book"), s)
       | Ret key =>
           if owned_by (s !! key) u
           then (json 200 [("success", Some (JBool true)); ("book", Some (new_book e u body))],
                 <["book:" ++ generateId e := new_book e u body]> s)
           else (json 403 (error_body "Invalid collection"), s)
       end.
Proof.
  intros Hroute Hauth Hbody. enter u.
  rewrite bind_req_json, Hbody; cbv beta iota.
  rewrite !member_object. binds.
  destruct (_ || _); [done|].
  rewrite bind_lift. destruct (template _ _) as [key|]; [|done].
  rewrite bind_kv_get; cbv beta iota. rewrite ownership_test.
  by destruct (owned_by _ _).
Qed.

(** X7: a collection creation with a truthy name stores, under a fresh
    generated id, exactly five fields: that id, the name, the description
    or the empty string, the caller as userId and the creation time.
    Nothing else of the body is kept, so a body cannot choose the id or the
    owner; the record is listed from then on. *)
Theorem post_my_collections_creates e req s u body :
  req_route req = PostMyCollections →
  authenticated e req u →
  json_body req = Some (JObj body) →
  truthy (body !! "name") = true →
  ∃ collection,
    app e req s
    = (json 200 [("success", Some (JBool true)); ("collection", Some (JObj collection))],
       <["collection:" ++ generateId e := JObj collection]> s)
    ∧ collection !! "id" = Some (JStr (generateId e))
    ∧ collection !! "name" = body !! "name"
    ∧ collection !! "description" = js_or (body !! "description") (Some (JStr ""))
    ∧ collection !! "userId" = Some (JStr u)
    ∧ collection !! "createdAt" = Some (JStr (iso_now e))
    ∧ (∀ k, k ∉ ["id"; "name"; "description"; "userId"; "createdAt"] →
         collection !! k = None)
    ∧ JObj collection ∈ scan "collection:" (app e req s).2.
Proof.
  intros Hroute Hauth Hbody Hname.
  rewrite (post_my_collections_run e req s u body), Hname by done. cbn [negb].
  unfold new_collection, object. eexists.
  split_and!; [reflexivity | fields.. | | cbn [snd]; apply scan_insert].
  intros k Hk. absent_field Hk.
Qed.

Lemma post_my_collections_creates_witness :
  let req := Sample.request_of PostMyCollections "token-b"
               (JObj (list_to_map [("name", JStr "Crime"); ("userId", JStr "alice");
                                   ("id", JStr "chosen")])) in
  ∃ collection,
    (app (Sample.world 5) req ∅).2 = {[ "collection:5-k3j9x0q1z" := JObj collection ]}
    ∧ collection !! "id" = Some (JStr "5-k3j9x0q1z")
    ∧ collection !! "userId" = Some (JStr "bob")
    ∧ collection !! "description" = Some (JStr "").
Proof.
  intros req.
  destruct (post_my_collections_creates (Sample.world 5) req ∅ "bob"
              (list_to_map [("name", JStr "Crime"); ("userId", JStr "alice");
                            ("id", JStr "chosen")]))
    as (collection & Hrun & Hid & _ & Hd & Hu & _).
  - reflexivity.
  - split; [reflexivity | discriminate].
  - reflexivity.
  - vm_compute; reflexivity.
  - exists collection. split_and!; [by rewrite Hrun | exact Hid | exact Hu |].
    rewrite Hd. vm_compute; reflexivity.
Defined.

(** X8: a book creation that passes validation and names a collection of
    the caller stores, under a fresh generated id, exactly eight fields:
    the id, the title and collectionId of the body, author, description and
    coverImage or the empty string, the caller as userId and the creation
    time; the book is listed from then on. *)
Theorem post_my_books_creates e req s u body key :
  req_route req = PostMyBooks →
  authenticated e req u →
  json_body req = Some (JObj body) →
  truthy (body !! "title") = true →
  truthy (body !! "collectionId") = true →
  template "collection:" (body !! "collectionId") = Ret key →
  owned_by (s !! key) u = true →
  ∃ book,
    app e req s
    = (json 200 [("success", Some (JBool true)); ("book", Some (JObj book))],
       <["book:" ++ generateId e := JObj book]> s)
    ∧ book !! "id" = Some (JStr (generateId e))
    ∧ book !! "title" = body !! "title"
    ∧ book !! "collectionId" = body !! "collectionId"
    ∧ (∀ k, k ∈ ["author"; "description"; "coverImage"] →
         book !! k = js_or (body !! k) (Some (JStr "")))
    ∧ book !! "userId" = Some (JStr u)
    ∧ book !! "createdAt" = Some (JStr (iso_now e))
    ∧ (∀ k, k ∉ ["id"; "title"; "author"; "description"; "coverImage";
                 "collectionId"; "userId"; "createdAt"] →
         book !! k = None)
    ∧ JObj book ∈ scan "book:" (app e req s).2.
Proof.
  intros Hroute Hauth Hbody Htitle Hcid Hkey Hown.
  rewrite (post_my_books_run e req s u body), Htitle, Hcid, Hkey, Hown by done.
  cbn [negb orb]. unfold new_book, object. eexists.
  split_and!; [reflexivity | fields.. | | | | | cbn [snd]; apply scan_insert].
  - intros k Hk. each_field Hk; fields.
  - fields.
  - fields.
  - intros k Hk. absent_field Hk.
Qed.

Lemma post_my_books_creates_witness :
  ∃ book,
    (app (Sample.world 2) Sample.alice_book (app (Sample.world 1) Sample.alice_shelf ∅).2).1
    = json 200 [("success", Some (JBool true)); ("book", Some (JObj book))]
    ∧ book !! "userId" = Some (JStr "alice")
    ∧ book !! "author" = Some (JStr "").
Proof.
  destruct (post_my_books_creates (Sample.world 2) Sample.alice_book
              (app (Sample.world 1) Sample.alice_shelf ∅).2 "alice"
              (list_to_map [("title", JStr "Dune"); ("collectionId", JStr "1-k3j9x0q1z")])
              "collection:1-k3j9x0q1z")
    as (book & Hrun & _ & _ & _ & Hdefaults & Hu & _).
  - reflexivity.
  - split; [reflexivity | discriminate].
  - reflexivity.
  - vm_compute; reflexivity.
  - vm_compute; reflexivity.
  - vm_compute; reflexivity.
  - vm_compute; reflexivity.
  - exists book. split_and!; [by rewrite Hrun | exact Hu |].
    rewrite (Hdefaults "author") by (apply elem_of_cons; left; reflexivity).
    vm_compute; reflexivity.
Defined.

(** *** Deleting *)

(** X9: the owner's deletion of a book is answered 200 and removes the
    book's key and nothing else; the same request sent again finds no book
    and is answered 403. *)
Theorem delete_my_book_deletes e req s u id :
  req_route req = DeleteMyBook id →
  authenticated e req u →
  owned_by (s !! ("book:" ++ id)) u = true →
  app e req s = (json 200 [("success", Some (JBool true))], delete ("book:" ++ id) s)
  ∧ (∀ key, key ≠ "book:" ++ id → (app e req s).2 !! key = s !! key)
  ∧ app e req (app e req s).2
    = (json 403 (error_body "Book not found or unauthorized"), (app e req s).2).
Proof.
  intros Hroute Hauth Hown.
  assert (app e req s
          = (json 200 [("success", Some (JBool true))], delete ("book:" ++ id) s)) as ->.
  { enter u. rewrite bind_kv_get; cbv beta. by rewrite ownership_test, Hown, bind_kv_del. }
  split_and!; [done | |].
  - intros key Hkey. cbn [snd]. by rewrite lookup_delete_ne.
  - cbn [snd]. enter u. rewrite bind_kv_get; cbv beta.
    by rewrite ownership_test, lookup_delete_eq.
Qed.

Lemma delete_my_book_deletes_witness :
  let req := Sample.request_of (DeleteMyBook "2-k3j9x0q1z") "token-a" JNull in
  (app (Sample.world 3) req Sample.alice_library).2 !! "book:2-k3j9x0q1z" = None
  ∧ status (app (Sample.world 3) req (app (Sample.world 3) req Sample.alice_library).2).1
    = 403%nat.
Proof.
  intros req.
  destruct (delete_my_book_deletes (Sample.world 3) req Sample.alice_library
              "alice" "2-k3j9x0q1z") as (Hrun & _ & Hagain).
  - reflexivity.
  - split; [reflexivity | discriminate].
  - vm_compute; reflexivity.
  - split.
    + rewrite Hrun. apply lookup_delete_eq.
    + by rewrite Hagain.
Defined.

(** X10: the deletion of a collection that is absent or not the caller's
    is answered 403 and deletes nothing, neither the collection nor any
    book. *)
Theorem delete_my_collection_forbidden e req s u id :
  req_route req = DeleteMyCollection id →
  authenticated e req u →
  owned_by (s !! ("collection:" ++ id)) u = false →
  app e req s = (json 403 (error_body "Collection not found or unauthorized"), s).
Proof.
  intros Hroute Hauth Hown. enter u.
  rewrite bind_kv_get; cbv beta. by rewrite ownership_test, Hown.
Qed.

Lemma delete_my_collection_forbidden_witness :
  let req := Sample.request_of (DeleteMyCollection "1-k3j9x0q1z") "token-b" JNull in
  app (Sample.world 3) req Sample.alice_library
  = (json 403 (error_body "Collection not found or unauthorized"), Sample.alice_library).
Proof.
  intros req.
  apply (delete_my_collection_forbidden (Sample.world 3) req Sample.alice_library
           "bob" "1-k3j9x0q1z").
  - reflexivity.
  - split; [reflexivity | discriminate].
  - vm_compute; reflexivity.
Defined.

(** *** Listings *)

Lemma filter_by_Ret field wanted l l' :
  filter_by field wanted l = Ret l' →
  l' = List.filter (λ r, strict_eq_str (opt_member (Some r) field) wanted) l.
Proof.
  unfold filter_by. revert l'. induction l as [|r l IH]; intros l'; cbn [filterM List.filter].
  - by intros [= <-].
  - destruct r; cbn [member res_bind]; try done;
      (destruct (filterM _ l) as [rest|]; [|done]);
      cbn [res_bind opt_member]; intros [= <-]; by rewrite (IH rest eq_refl).
Qed.

Lemma filter_by_members field wanted l l' :
  filter_by field wanted l = Ret l' →
  ∀ r, r ∈ l' ↔ r ∈ l ∧ strict_eq_str (opt_member (Some r) field) wanted = true.
Proof.
  intros ->%filter_by_Ret r. rewrite elem_of_filter_bool. tauto.
Qed.

(** X11: what GET /my/books and GET /my/collections list, when they
    answer 200, is exactly the stored books (collections) whose userId is
    the caller: nobody else's record, and none of the caller's missing.
    They answer 200 whenever no stored book (collection) is null. *)
Theorem my_listings_are_the_callers e req s u prefix field :
  (req_route req = GetMyBooks ∧ prefix = "book:" ∧ field = "books")
  ∨ (req_route req = GetMyCollections ∧ prefix = "collection:" ∧ field = "collections") →
  authenticated e req u →
  (Forall (λ r, r ≠ JNull) (scan prefix s) → status (app e req s).1 = 200%nat)
  ∧ (status (app e req s).1 = 200%nat →
     ∃ listed,
       app e req s = (json 200 [(field, Some (JArr listed))], s)
       ∧ ∀ r, r ∈ listed ↔
              r ∈ scan prefix s ∧ opt_member (Some r) "userId" = Some (JStr u)).
Proof.
  intros Hcase Hauth.
  assert (app e req s =
          match filter_by "userId" u (scan prefix s) with
          | Ret listed => (json 200 [(field, Some (JArr listed))], s)
          | Exn => (json 500 (error_body (if decide (field = "books")
                                          then "Failed to fetch user books"
                                          else "Failed to fetch user collections")), s)
          end) as ->.
  { destruct Hcase as [(Hroute & -> & ->) | (Hroute & -> & ->)]; enter u;
      rewrite bind_kv_getByPrefix, bind_lift; by destruct (filter_by _ _ _). }
  split.
  - intros Hall. by rewrite filter_by_run.
  - destruct (filter_by "userId" u (scan prefix s)) as [listed|] eqn:Hfilter; [|done].
    intros _. exists listed. split; [done|].
    intros r. rewrite (filter_by_members _ _ _ _ Hfilter r).
    unfold strict_eq_str.
    destruct (opt_member (Some r) "userId") as [[]|]; try (split; intros [? ?]; done).
    split; intros [? Heq]; (split; [done|]).
    + by apply String.eqb_eq in Heq as ->.
    + injection Heq as ->. apply String.eqb_refl.
Qed.

Lemma my_listings_are_the_callers_witness :
  let req := {| req_route := GetMyBooks; authorization := Some "Bearer token-b";
                json_body := None |} in
  status (app (Sample.world 9) req Sample.after_move).1 = 200%nat.
Proof.
  intros req.
  apply (my_listings_are_the_callers (Sample.world 9) req Sample.after_move "bob"
           "book:" "books").
  - left. done.
  - split; [reflexivity | discriminate].
  - apply scan_books_not_null, reachable_well_keyed.
    apply reachable_step, reachable_step, reachable_step, reachable_step, reachable_empty.
Defined.

(** X12: GET /user/:userId/collections, when it answers 200, lists exactly
    the stored collections whose userId is the path's userId, and names
    that user by the name of the user record, or as "Unknown User" when
    there is no record or its name is falsy. *)
Theorem get_user_collections_lists_the_users e req s userId :
  req_route req = GetUserCollections userId →
  status (app e req s).1 = 200%nat →
  ∃ listed,
    app e req s
    = (json 200 [("collections", Some (JArr listed));
                 ("userName", js_or (opt_member (s !! ("user:" ++ userId)) "name")
                                (Some (JStr "Unknown User")))], s)
    ∧ (∀ r, r ∈ listed ↔
            r ∈ scan "collection:" s ∧ opt_member (Some r) "userId" = Some (JStr userId))
    ∧ (s !! ("user:" ++ userId) = None →
       opt_member (Some (payload (app e req s).1)) "userName" = Some (JStr "Unknown User")).
Proof.
  intros Hroute. unfold app. rewrite Hroute. unfold get_user_collections, try_catch.
  rewrite bind_kv_getByPrefix, bind_lift.
  destruct (filter_by "userId" userId (scan "collection:" s)) as [listed|] eqn:Hfilter;
    [|done].
  rewrite bind_kv_get. intros _. exists listed. split_and!; [done | |].
  - intros r. rewrite (filter_by_members _ _ _ _ Hfilter r).
    unfold strict_eq_str.
    destruct (opt_member (Some r) "userId") as [[]|]; try (split; intros [? ?]; done).
    split; intros [? Heq]; (split; [done|]).
    + by apply String.eqb_eq in Heq as ->.
    + injection Heq as ->. apply String.eqb_refl.
  - intros ->. reflexivity.
Qed.

Lemma get_user_collections_lists_the_users_witness :
  let req := {| req_route := GetUserCollections "alice"; authorization := None;
                json_body := None |} in
  opt_member (Some (payload (app (Sample.world 9) req Sample.alice_library).1)) "userName"
  = Some (JStr "Unknown User").
Proof.
  intros req.
  destruct (get_user_collections_lists_the_users (Sample.world 9) req
              Sample.alice_library "alice") as (listed & _ & _ & Hname).
  - reflexivity.
  - vm_compute; reflexivity.
  - apply Hname. vm_compute; reflexivity.
Defined.

(** X13: GET /collection/:collectionId/books, when it answers 200, lists
    exactly the stored books whose collectionId is the path's id, together
    with the collection record, or null when there is none; it lists books
    also for an id under which no collection is stored. *)
Theorem get_collection_books_lists_the_collections e req s collectionId :
  req_route req = GetCollectionBooks collectionId →
  status (app e req s).1 = 200%nat →
  ∃ listed,
    app e req s
    = (json 200 [("books", Some (JArr listed));
                 ("collection", js_or (s !! ("collection:" ++ collectionId)) (Some JNull))], s)
    ∧ (∀ r, r ∈ listed ↔
            r ∈ scan "book:" s
            ∧ opt_member (Some r) "collectionId" = Some (JStr collectionId))
    ∧ (s !! ("collection:" ++ collectionId) = None →
       opt_member (Some (payload (app e req s).1)) "collection" = Some JNull).
Proof.
  intros Hroute. unfold app. rewrite Hroute. unfold get_collection_books, try_catch.
  rewrite bind_kv_getByPrefix, bind_lift.
  destruct (filter_by "collectionId" collectionId (scan "book:" s)) as [listed|] eqn:Hfilter;
    [|done].
  rewrite bind_kv_get. intros _. exists listed. split_and!; [done | |].
  - intros r. rewrite (filter_by_members _ _ _ _ Hfilter r).
    unfold strict_eq_str.
    destruct (opt_member (Some r) "collectionId") as [[]|]; try (split; intros [? ?]; done).
    split; intros [? Heq]; (split; [done|]).
    + by apply String.eqb_eq in Heq as ->.
    + injection Heq as ->. apply String.eqb_refl.
  - intros ->. reflexivity.
Qed.

Lemma get_collection_books_lists_the_collections_witness :
  let req := {| req_route := GetCollectionBooks "nowhere"; authorization := None;
                json_body := None |} in
  opt_member (Some (payload (app (Sample.world 9) req Sample.alice_library).1)) "collection"
  = Some JNull.
Proof.
  intros req.
  destruct (get_collection_books_lists_the_collections (Sample.world 9) req
              Sample.alice_library "nowhere") as (listed & _ & _ & Hnull).
  - reflexivity.
  - vm_compute; reflexivity.
  - apply Hnull. vm_compute; reflexivity.
Defined.

(** *** Updating twice, and updating the profile *)

(** X14: a profile update merges like a book update: name is taken from
    the body only when truthy there, bio whenever the body has it, updatedAt
    is set, and every other field of the user record, id and email among
    them, is kept whatever the body says. *)
Theorem put_my_profile_merges_fields e req s u user body :
  req_route req = PutMyProfile →
  authenticated e req u →
  s !! ("user:" ++ u) = Some (JObj user) →
  json_body req = Some (JObj body) →
  ∃ updated,
    app e req s
    = (json 200 [("success", Some (JBool true)); ("user", Some (JObj updated))],
       <["user:" ++ u := JObj updated]> s)
    ∧ updated !! "name" = js_or (body !! "name") (user !! "name")
    ∧ updated !! "bio" = supplied_or (body !! "bio") (user !! "bio")
    ∧ updated !! "updatedAt" = Some (JStr (iso_now e))
    ∧ (∀ k, k ∉ ["name"; "bio"; "updatedAt"] → updated !! k = user !! k).
Proof.
  intros Hroute Hauth Huser Hbody.
  rewrite (put_my_profile_run e req s u), Huser, Hbody by done. cbn [truthy].
  unfold updated_user, object. cbn [spread opt_member]. eexists.
  split_and!; [reflexivity | fields.. |].
  intros k Hk. cbn [foldl fst snd].
  by repeat (first [rewrite lookup_set_field | rewrite lookup_insert];
             rewrite decide_False by (intros <-; apply Hk; set_solver)).
Qed.

Lemma put_my_profile_merges_fields_witness :
  let user : gmap string value :=
    list_to_map [("id", JStr "alice"); ("email", JStr "alice@example.org");
                 ("name", JStr "Alice")] in
  let req := Sample.request_of PutMyProfile "token-a"
               (JObj (list_to_map [("name", JStr ""); ("bio", JStr "");
                                   ("email", JStr "mallory@example.org")])) in
  ∃ updated,
    (app (Sample.world 7) req {[ "user:alice" := JObj user ]}).2
    = <["user:alice" := JObj updated]> {[ "user:alice" := JObj user ]}
    ∧ updated !! "name" = Some (JStr "Alice")
    ∧ updated !! "bio" = Some (JStr "")
    ∧ updated !! "email" = Some (JStr "alice@example.org").
Proof.
  intros user req.
  destruct (put_my_profile_merges_fields (Sample.world 7) req
              {[ "user:alice" := JObj user ]} "alice" user
              (list_to_map [("name", JStr ""); ("bio", JStr "");
                            ("email", JStr "mallory@example.org")]))
    as (updated & Hrun & Hname & Hbio & _ & Hrest).
  - reflexivity.
  - split; [reflexivity | discriminate].
  - vm_compute; reflexivity.
  - reflexivity.
  - exists updated. split_and!.
    + by rewrite Hrun.
    + rewrite Hname. vm_compute; reflexivity.
    + rewrite Hbio. vm_compute; reflexivity.
    + rewrite (Hrest "email").
      * vm_compute; reflexivity.
      * intros H. repeat (apply elem_of_cons in H as [H | H]; [discriminate|]).
        by apply elem_of_nil in H.
Defined.

Lemma js_or_idem a b : js_or a (js_or a b) = js_or a b.
Proof. unfold js_or. by destruct (truthy a). Qed.

Lemma supplied_or_idem a b : supplied_or a (supplied_or a b) = supplied_or a b.
Proof. by destruct a. Qed.

(** X15: a book update is idempotent: sent again at the same clock
    reading, the same request gets the same answer and leaves the store the
    first one left. *)
Theorem put_my_book_idempotent e req s id :
  req_route req = PutMyBook id →
  app e req (app e req s).2 = app e req s.
Proof.
  intros Hroute.
  destruct (protected_cases e req) as [[u Hu] | Hno].
  2:{ unfold app. rewrite Hroute. unfold put_my_book. by rewrite !Hno. }
  rewrite (put_my_book_run e req s u id) by done.
  destruct (s !! ("book:" ++ id)) as [[| | | | |book]|] eqn:Hbook;
    try (cbn [snd]; by rewrite (put_my_book_run e req s u id), Hbook by done).
  destruct (strict_eq_str (book !! "userId") u) eqn:Hown;
    [|cbn [snd]; by rewrite (put_my_book_run e req s u id), Hbook, Hown by done].
  destruct (json_body req) as [body|] eqn:Hbody;
    [|cbn [snd]; by rewrite (put_my_book_run e req s u id), Hbook, Hown, Hbody by done].
  assert (body = JNull ∨ body ≠ JNull) as [->|Hnn]
    by (destruct body; auto; right; done).
  { cbn [snd]. by rewrite (put_my_book_run e req s u id), Hbook, Hown, Hbody by done. }
  assert (∃ updated, updated_book e body book = JObj updated
                     ∧ updated_book e body updated = JObj updated
                     ∧ updated !! "userId" = book !! "userId")
    as (updated & Hupdated & Hagain & Huser).
  { unfold updated_book, object. eexists. split_and!; [reflexivity | | fields].
    f_equal. apply map_eq. intros k. cbn [foldl fst snd].
    repeat first [rewrite lookup_set_field | rewrite lookup_insert].
    repeat case_decide; try done; subst;
      repeat first [rewrite lookup_set_field | rewrite lookup_insert];
      repeat first [rewrite decide_True by done | rewrite decide_False by done];
      by rewrite ?js_or_idem, ?supplied_or_idem. }
  assert (app e req (<["book:" ++ id := updated_book e body book]> s)
          = (json 200 [("success", Some (JBool true)); ("book", Some (updated_book e body book))],
             <["book:" ++ id := updated_book e body book]> s)) as Hsecond.
  { rewrite (put_my_book_run e req _ u id), lookup_insert_eq, Hupdated, Huser, Hown, Hbody,
      Hagain, insert_insert_eq by done.
    by destruct body. }
  destruct body; try done; cbn [snd]; by rewrite Hsecond.
Qed.

Lemma put_my_book_idempotent_witness :
  app (Sample.world 4) Sample.bob_moves_book Sample.after_move
  = app (Sample.world 4) Sample.bob_moves_book Sample.before_move.
Proof.
  apply (put_my_book_idempotent (Sample.world 4) Sample.bob_moves_book Sample.before_move
           "3-k3j9x0q1z").
  reflexivity.
Defined.

(** *** The shape of the stored records *)

Lemma well_formed_empty : well_formed ∅.
Proof. split; intros k v; by rewrite lookup_empty. Qed.

Lemma well_formed_subseteq (s s' : store) : s' ⊆ s → well_formed s → well_formed s'.
Proof.
  intros Hsub [Hk Hb Hc Hu].
  split; intros k v Hv; [apply (Hk k v) | apply (Hb k) | apply (Hc k) | apply (Hu k)];
    by eapply lookup_weaken.
Qed.

Lemma well_formed_insert_book (s : store) k v :
  book_ok k v → well_formed s → well_formed (<["book:" ++ k := v]> s).
Proof.
  intros Hv [Hk Hb Hc Hu].
  split; intros k' v' [[Heq <-] | [Hne Hv']]%lookup_insert_Some; eauto;
    simplify_eq/=; eauto.
Qed.

Lemma well_formed_insert_collection (s : store) k v :
  collection_ok k v → well_formed s → well_formed (<["collection:" ++ k := v]> s).
Proof.
  intros Hv [Hk Hb Hc Hu].
  split; intros k' v' [[Heq <-] | [Hne Hv']]%lookup_insert_Some; eauto;
    simplify_eq/=; eauto.
Qed.

Lemma well_formed_insert_user (s : store) k v :
  user_ok k v → well_formed s → well_formed (<["user:" ++ k := v]> s).
Proof.
  intros Hv [Hk Hb Hc Hu].
  split; intros k' v' [[Heq <-] | [Hne Hv']]%lookup_insert_Some; eauto;
    simplify_eq/=; eauto.
Qed.

Lemma keeps_well_formed_del key : keeps well_formed (kv_del key).
Proof.
  intros s Hs. simpl. eapply well_formed_subseteq; [apply delete_subseteq | done].
Qed.

Lemma guard_passed e req :
  str_truthy (v_error (verifyUser e req))
  || negb (str_truthy (v_userId (verifyUser e req))) = false →
  default "" (v_userId (verifyUser e req)) ≠ "".
Proof.
  intros [_ Hu%negb_false_iff]%orb_false_iff.
  destruct (v_userId (verifyUser e req)) as [u|]; [|done].
  simpl in *. by apply negb_true_iff, String.eqb_neq in Hu.
Qed.

Lemma js_or_default_is_Some a d : is_Some (js_or a (Some d)).
Proof.
  unfold js_or. destruct (truthy a) eqn:Ha; [|by eexists].
  destruct a; [by eexists | done].
Qed.

Lemma js_or_truthy a b : truthy b = true → truthy (js_or a b) = true.
Proof. intros Hb. unfold js_or. by destruct (truthy a) eqn:Ha. Qed.

Lemma supplied_or_is_Some a b : is_Some b → is_Some (supplied_or a b).
Proof. intros Hb. destruct a; [by eexists | done]. Qed.

Ltac truths :=
  repeat match goal with
         | H : _ || _ = false |- _ => apply orb_false_iff in H as [? ?]
         | H : negb _ = false |- _ => apply negb_false_iff in H
         end.

Ltac wf_step := first [apply keeps_well_formed_del | keeps_step].

Lemma app_well_formed e req s : well_formed s → well_formed (app e req s).2.
Proof.
  intros Hs.
  destruct (req_route req) eqn:Hroute.
  - unfold app; rewrite Hroute; unfold post_signup. rewrite try_catch_snd.
    revert s Hs. cbv zeta. as_keeps. repeat wf_step.
    intros s Hs. apply well_formed_insert_user; [|done]. truths.
    eexists. split_and!; [reflexivity | fields..].
  - unfold app; rewrite Hroute; unfold get_books. rewrite try_catch_snd.
    revert s Hs. cbv zeta. as_keeps. repeat wf_step.
  - unfold app; rewrite Hroute; unfold get_collections. rewrite try_catch_snd.
    revert s Hs. unfold enrich. as_keeps. repeat wf_step.
  - unfold app; rewrite Hroute; unfold get_user_collections. rewrite try_catch_snd.
    revert s Hs. cbv zeta. as_keeps. repeat wf_step.
  - unfold app; rewrite Hroute; unfold get_collection_books. rewrite try_catch_snd.
    revert s Hs. cbv zeta. as_keeps. repeat wf_step.
  - unfold app; rewrite Hroute; unfold get_my_books, protected. rewrite try_catch_snd.
    revert s Hs. cbv zeta. as_keeps. repeat wf_step.
  - unfold app; rewrite Hroute; unfold get_my_collections, protected. rewrite try_catch_snd.
    revert s Hs. cbv zeta. as_keeps. repeat wf_step.
  - unfold app; rewrite Hroute; unfold post_my_collections, protected. rewrite try_catch_snd.
    revert s Hs. cbv zeta. as_keeps. repeat wf_step.
    intros s Hs. apply well_formed_insert_collection; [|done].
    match goal with H : _ || _ = false |- _ => pose proof (guard_passed e req H) end.
    truths. eexists _, _, _.
    split_and!; [reflexivity | fields | fields | done | fields | | fields].
    fields. apply js_or_default_is_Some.
  - unfold app; rewrite Hroute; unfold post_my_books, protected. rewrite try_catch_snd.
    revert s Hs. cbv zeta. as_keeps. repeat wf_step.
    intros s Hs. apply well_formed_insert_book; [|done].
    match goal with
    | H : str_truthy _ || _ = false |- _ => pose proof (guard_passed e req H); clear H
    end.
    truths. eexists _, _, _.
    split_and!; [reflexivity | fields | fields | done | fields | fields | | | | fields];
      fields; apply js_or_default_is_Some.
  - destruct (protected_cases e req) as [[u Hu] | Hno].
    + rewrite (put_my_book_run e req s u id) by done.
      destruct (s !! ("book:" ++ id)) as [[| | | | |book]|] eqn:Hbook; try done.
      destruct (strict_eq_str _ _); [|done].
      destruct (wf_book s Hs id _ Hbook)
        as (o & owner & t & [= <-] & Hid & Howner & Hne & Htitle & Hcid & Ha & Hd & Hi & Ht).
      destruct (json_body req) as [body|]; [|done].
      assert (book_ok id (updated_book e body book)) as Hok.
      { eexists _, owner, t.
        split_and!; [reflexivity | fields | fields | done | fields | fields | | | | fields];
          fields; by first [apply js_or_truthy | apply supplied_or_is_Some]. }
      destruct body; try done; cbn [snd]; by apply well_formed_insert_book.
    + unfold app; rewrite Hroute; unfold put_my_book. by rewrite Hno.
  - unfold app; rewrite Hroute; unfold delete_my_book, protected. rewrite try_catch_snd.
    revert s Hs. cbv zeta. as_keeps. repeat wf_step.
  - unfold app; rewrite Hroute; unfold delete_my_collection, protected. rewrite try_catch_snd.
    revert s Hs. unfold delete_book_of. cbv zeta. as_keeps. repeat wf_step.
  - unfold app; rewrite Hroute; unfold get_my_profile, protected. rewrite try_catch_snd.
    revert s Hs. cbv zeta. as_keeps. repeat wf_step.
  - destruct (protected_cases e req) as [[u Hu] | Hno].
    + rewrite (put_my_profile_run e req s u) by done.
      destruct (s !! ("user:" ++ u)) as [user|] eqn:Huser; [|done].
      destruct (wf_user s Hs u _ Huser) as (o & -> & Hid & Hemail & Hname). cbn [truthy].
      destruct (json_body req) as [body|]; [|done].
      assert (user_ok u (updated_user e body (Some (JObj o)))) as Hok.
      { unfold updated_user. cbn [spread opt_member]. eexists.
        split_and!; [reflexivity | fields..]. by apply js_or_truthy. }
      destruct body; try done; cbn [snd]; by apply well_formed_insert_user.
    + unfold app; rewrite Hroute; unfold put_my_profile. by rewrite Hno.
Qed.

(** X16: in every store the server reaches, every key is a user, book or
    collection key; a book carries the id of its key, a non-empty userId, a
    truthy title and collectionId (no update can blank them), author,
    description and coverImage, and a creation time; a collection carries
    its id, a non-empty userId, a truthy name, a description and a creation
    time; a user carries its id and a truthy email and name. *)
Theorem reachable_well_formed s : reachable s → well_formed s.
Proof.
  induction 1 as [|e req s _ IH]; [apply well_formed_empty | by apply app_well_formed].
Qed.

Lemma reachable_well_formed_witness : well_formed Sample.after_move.
Proof.
  apply (reachable_well_formed Sample.after_move).
  apply reachable_step, reachable_step, reachable_step, reachable_step, reachable_empty.
Defined.

(** *** Generated ids *)

Lemma pretty_N_char_not_dash x : pretty_N_char x ≠ "-"%char.
Proof. unfold pretty_N_char. by repeat case_match. Qed.

Lemma pretty_N_go_no_dash x s :
  contains "-" s = false → contains "-" (pretty_N_go x s) = false.
Proof.
  revert s. induction (N.lt_wf_0 x) as [x _ IH]; intros s Hs.
  destruct (decide (0 < x)%N) as [Hx|Hx].
  - rewrite pretty_N_go_step by done. apply IH.
    + apply N.div_lt; lia.
    + cbn [contains]. rewrite Hs, orb_false_r.
      apply Ascii.eqb_neq, pretty_N_char_not_dash.
  - assert (x = 0%N) as -> by lia. by rewrite pretty_N_go_0.
Qed.

Lemma pretty_N_no_dash (x : N) : contains "-" (pretty x) = false.
Proof.
  unfold pretty, pretty_N. case_decide; [done|]. by apply pretty_N_go_no_dash.
Qed.

Lemma app_sep_inj c a b r r' :
  contains c a = false → contains c b = false →
  a ++ String c r = b ++ String c r' → a = b ∧ r = r'.
Proof.
  revert b. induction a as [|x a IH]; intros [|y b]; simpl.
  - by intros _ _ [= ->].
  - intros _ [Hy _]%orb_false_iff [= <- _]. by rewrite Ascii.eqb_refl in Hy.
  - intros [Hx _]%orb_false_iff _ [= -> _]. by rewrite Ascii.eqb_refl in Hx.
  - intros [_ Ha]%orb_false_iff [_ Hb]%orb_false_iff [= -> Heq].
    destruct (IH b Ha Hb Heq) as [-> ->]. done.
Qed.

(** X17: two generated ids are equal only when both the clock reading and
    the random suffix are: the time part holds no dash, so the id splits
    back into its two parts. *)
Theorem generateId_inj e1 e2 :
  generateId e1 = generateId e2 →
  date_now e1 = date_now e2 ∧ random_suffix e1 = random_suffix e2.
Proof.
  unfold generateId. intros Heq.
  apply (app_sep_inj "-") in Heq as [Hnow Hsuffix];
    [| apply pretty_N_no_dash | apply pretty_N_no_dash].
  split; [by apply (inj pretty) | done].
Qed.

Lemma generateId_inj_witness :
  date_now (Sample.world 1714557600000) = date_now (Sample.world 1714557600000)
  ∧ random_suffix (Sample.world 1714557600000) = random_suffix (Sample.world 1714557600000).
Proof.
  apply (generateId_inj (Sample.world 1714557600000) (Sample.world 1714557600000)).
  reflexivity.
Defined.

(** *** One request, one key *)

Lemma one_key_ret r : one_key (ret r).
Proof. intros s. by exists "". Qed.

Lemma one_key_throw : one_key throw.
Proof. intros s. by exists "". Qed.

Lemma one_key_bind {A} (m : M A) (k : A → M response) :
  (∀ P, keeps P m) → (∀ a, one_key (k a)) → one_key (bind m k).
Proof.
  intros Hm Hk s. unfold bind.
  pose proof (Hm (λ s', s' = s) s eq_refl) as Hs.
  destruct (m s) as [[a|] s']; simpl in Hs; subst; [apply Hk | by exists ""].
Qed.

Lemma one_key_set key v r : one_key (bind (kv_set key v) (λ _, ret r)).
Proof. intros s. exists key. intros k Hk. simpl. by rewrite lookup_insert_ne. Qed.

Lemma one_key_del key r : one_key (bind (kv_del key) (λ _, ret r)).
Proof. intros s. exists key. intros k Hk. simpl. by rewrite lookup_delete_ne. Qed.

Lemma try_catch_one_key m msg s :
  one_key m → ∃ key, ∀ k, k ≠ key → (try_catch m msg s).2 !! k = s !! k.
Proof. intros Hm. rewrite try_catch_snd. apply Hm. Qed.

Ltac one_key_step :=
  first
    [ apply one_key_ret | apply one_key_throw | apply one_key_set | apply one_key_del
    | apply one_key_bind; [intros ?; unfold enrich; by repeat keeps_step | intros ?]
    | match goal with
      | |- one_key (if ?c then _ else _) => destruct c eqn:?
      | |- one_key (match ?x with _ => _ end) => destruct x eqn:?
      end ].

(** X18: apart from the deletion of a collection, no request changes the
    store under more than one key, whatever its body and whoever sends
    it. *)
Theorem one_request_one_key e req s :
  (∀ id, req_route req ≠ DeleteMyCollection id) →
  ∃ key, ∀ k, k ≠ key → (app e req s).2 !! k = s !! k.
Proof.
  intros Hroute. unfold app.
  destruct (req_route req) eqn:Hr;
    try (apply try_catch_one_key; unfold protected; cbv zeta; by repeat one_key_step).
  by destruct (Hroute id).
Qed.

Lemma one_request_one_key_witness :
  ∃ key, ∀ k, k ≠ key →
    (app (Sample.world 4) Sample.bob_moves_book Sample.before_move).2 !! k
    = Sample.before_move !! k.
Proof.
  apply (one_request_one_key (Sample.world 4) Sample.bob_moves_book Sample.before_move).
  intros id. discriminate.
Defined.

(** *** Bodies that are not objects *)

(** X19: sign-up and the two creations answer 500, with the failure
    message of their catch-all, a body that cannot be read as JSON or is
    null, and 400, as for missing fields, a body that is a boolean, a
    number, a string or an array; neither stores anything. *)
Theorem post_routes_reject_non_objects e req s :
  post_route (req_route req) = true →
  admitted e req →
  ((json_body req = None ∨ json_body req = Some JNull) →
     app e req s = (json 500 (error_body (failure_of (req_route req))), s))
  ∧ (∀ body, json_body req = Some body → body ≠ JNull → (∀ o, body ≠ JObj o) →
       app e req s = (json 400 (error_body (required_of (req_route req))), s)).
Proof.
  intros Hpost Hadmitted.
  assert (∀ (k : string → M response), (∃ u, authenticated e req u) →
            ∃ u, protected e req k = k u) as Hguard.
  { intros k [u Hu]. exists u. by apply protected_authenticated. }
  unfold app.
  destruct (req_route req) eqn:Hroute; try discriminate Hpost;
    unfold post_signup, post_my_collections, post_my_books, try_catch;
    try (destruct Hadmitted as [? | Hauth]; [congruence|];
         match goal with
         | |- context [protected e req ?k] => destruct (Hguard k Hauth) as [u ->]
         end);
    cbv beta;
    (split;
     [ intros [Hbody | Hbody]; rewrite bind_req_json, Hbody; done
     | intros body Hbody Hnn Hno; rewrite bind_req_json, Hbody; cbv beta iota;
       rewrite !member_not_null by done; binds;
       destruct body; try done; by destruct (Hno o) ]).
Qed.

Lemma post_routes_reject_non_objects_witness :
  let req := {| req_route := PostMyBooks; authorization := Some "Bearer token-a";
                json_body := Some (JArr [JStr "Dune"]) |} in
  app (Sample.world 7) req ∅ = (json 400 (error_body "Title and collection are required"), ∅).
Proof.
  intros req.
  apply (post_routes_reject_non_objects (Sample.world 7) req ∅) with (body := JArr [JStr "Dune"]).
  - reflexivity.
  - right. exists "alice". split; [reflexivity | discriminate].
  - reflexivity.
  - discriminate.
  - intros o. discriminate.
Defined.
